(** * protoc-gen-service-registry: the generator pipeline, embedded and verified

    The repository holds two near-identical Go programs: [main.go]
    (prefix-stripping package names, whole-name lower-casing of the file
    name) and a second program (verbatim package names, an extra
    [ProtoImportPath] field, lower-camel file names through [toCamelCase]).

    Go strings are byte sequences: they are modelled as [string], whose
    characters ([ascii]) are the bytes.  The functions of the Go standard
    library that the programs call ([strings.Split], [strings.SplitN],
    [strings.TrimSpace], [strings.TrimPrefix], [strings.TrimSuffix],
    [strings.ToLower], [filepath.Join]) are modelled after their Go
    sources; the filesystem, the template engine and the source formatter
    are collaborators the development is parametric in. *)

From Stdlib Require Import List Arith Lia Bool NArith Ascii String.
Import ListNotations.
Local Open Scope list_scope.
Local Open Scope string_scope.

(* ================================================================== *)
(** * Bytes and slices *)
(* ================================================================== *)

Module GoString.

(** [len(s)] *)
Definition len (s : string) : nat := String.length s.

(** [s[i]] as a number; out of range is never reached by the callers
    (Go would panic), the default is [0]. *)
Definition at_ (s : string) (i : nat) : N :=
  match String.get i s with
  | Some c => N_of_ascii c
  | None => 0%N
  end.

(** [s[i:j]] *)
Definition slice (s : string) (i j : nat) : string :=
  String.substring i (j - i) s.

(** [s[i:]] *)
Definition slice_from (s : string) (i : nat) : string :=
  slice s i (len s).

(** [s[:j]] *)
Definition slice_to (s : string) (j : nat) : string :=
  slice s 0 j.

(** Membership of a byte in a string ([strings.IndexByte(s, c) >= 0]). *)
Fixpoint contains (c : ascii) (s : string) : bool :=
  match s with
  | EmptyString => false
  | String a s' => Ascii.eqb a c || contains c s'
  end.

Definition byte_in (lo hi : N) (c : ascii) : bool :=
  ((lo <=? N_of_ascii c) && (N_of_ascii c <=? hi))%N.

(** [sub t s]: every byte of [t] is a byte of [s]; it holds of each
    slice of [s]. *)
Definition sub (t s : string) : Prop :=
  forall c, contains c t = true -> contains c s = true.

End GoString.
Import GoString.

(* ================================================================== *)
(** * Package unicode/utf8 and unicode.IsSpace *)
(* ================================================================== *)

Module utf8.

Definition RuneError : N := 65533%N.   (* U+FFFD *)
Definition RuneSelf : N := 128%N.

(** The [first] table joined with [acceptRanges]: for a leading byte of a
    multi-byte sequence, the sequence's size and the range accepted for
    the second byte; [None] for an ASCII byte and for an invalid leading
    byte. *)
Definition first (s0 : N) : option (nat * N * N) :=
  if (s0 <? 194)%N then None                            (* as / xx *)
  else if (s0 <=? 223)%N then Some (2, 128%N, 191%N)      (* s1 *)
  else if (s0 =? 224)%N then Some (3, 160%N, 191%N)       (* s2 *)
  else if (s0 <=? 236)%N then Some (3, 128%N, 191%N)      (* s3 *)
  else if (s0 =? 237)%N then Some (3, 128%N, 159%N)       (* s4 *)
  else if (s0 <=? 239)%N then Some (3, 128%N, 191%N)      (* s3 *)
  else if (s0 =? 240)%N then Some (4, 144%N, 191%N)       (* s5 *)
  else if (s0 <=? 243)%N then Some (4, 128%N, 191%N)      (* s6 *)
  else if (s0 =? 244)%N then Some (4, 128%N, 143%N)       (* s7 *)
  else None.                                            (* xx *)

Definition cont (b : N) : bool := ((128 <=? b) && (b <=? 191))%N.

(** [utf8.DecodeRuneInString]: the rune at the start of [s] and its width
    in bytes; an invalid encoding decodes as [(RuneError, 1)], the empty
    string as [(RuneError, 0)]. *)
Definition DecodeRuneInString (s : string) : N * nat :=
  let n := len s in
  if (n <? 1)%nat then (RuneError, 0)
  else
    let s0 := at_ s 0 in
    match first s0 with
    | None => if (s0 <? RuneSelf)%N then (s0, 1) else (RuneError, 1)
    | Some (sz, lo, hi) =>
        if (n <? sz)%nat then (RuneError, 1)
        else
          let s1 := at_ s 1 in
          if ((s1 <? lo) || (hi <? s1))%N then (RuneError, 1)
          else if (sz <=? 2)%nat then
            (N.lor (N.shiftl (N.land s0 31) 6) (N.land s1 63), 2)
          else
            let s2 := at_ s 2 in
            if negb (cont s2) then (RuneError, 1)
            else if (sz <=? 3)%nat then
              (N.lor (N.lor (N.shiftl (N.land s0 15) 12)
                            (N.shiftl (N.land s1 63) 6))
                     (N.land s2 63), 3)
            else
              let s3 := at_ s 3 in
              if negb (cont s3) then (RuneError, 1)
              else
                (N.lor (N.lor (N.lor (N.shiftl (N.land s0 7) 18)
                                     (N.shiftl (N.land s1 63) 12))
                              (N.shiftl (N.land s2 63) 6))
                       (N.land s3 63), 4)
    end.

(** [utf8.RuneStart] *)
Definition RuneStart (b : N) : bool := negb (N.land b 192 =? 128)%N.

(** The backward scan of [DecodeLastRuneInString]:
    [for start--; start >= lim; start-- { if RuneStart(s[start]) { break } }],
    entered at [start = end - 2]; [k] bounds the number of bytes looked
    at, which is [end - 1 - lim].  The result is the final [start], with
    [None] for a value below zero. *)
Fixpoint scan_back (s : string) (start : nat) (k : nat) : option nat :=
  match k with
  | 0 => match start with 0 => None | S p => Some p end
  | S k' =>
      match start with
      | 0 => None
      | S p =>
          if RuneStart (at_ s p) then Some p
          else scan_back s p k'
      end
  end.

(** [utf8.DecodeLastRuneInString] *)
Definition DecodeLastRuneInString (s : string) : N * nat :=
  let end_ := len s in
  if (end_ =? 0)%nat then (RuneError, 0)
  else
    let r := at_ s (end_ - 1) in
    if (r <? RuneSelf)%N then (r, 1)
    else
      let lim := end_ - 4 in
      let start :=
        match scan_back s (end_ - 1) (end_ - 1 - lim) with
        | Some p => p
        | None => 0
        end in
      let '(r', size) := DecodeRuneInString (slice s start end_) in
      if (start + size =? end_)%nat then (r', size) else (RuneError, 1).

End utf8.

Module unicode.

(** [unicode.IsSpace]: the Latin-1 cases, then the [White_Space] range
    table without its Latin-1 part. *)
Definition IsSpace (r : N) : bool :=
  if (r <=? 255)%N then
    ((r =? 9) || (r =? 10) || (r =? 11) || (r =? 12) || (r =? 13)
     || (r =? 32) || (r =? 133) || (r =? 160))%N
  else
    ((r =? 5760)
     || ((8192 <=? r) && (r <=? 8202))
     || (r =? 8232) || (r =? 8233) || (r =? 8239) || (r =? 8287)
     || (r =? 12288))%N.

End unicode.

(* ================================================================== *)
(** * Package strings *)
(* ================================================================== *)

Module strings.

(** [strings.Cut(s, sep)] for a one-byte separator: the text before and
    after the first occurrence of [sep], [None] when there is none.  It
    stands for [m := Index(s, sep)], [s[:m]] and [s[m+len(sep):]] in
    [genSplit]. *)
Fixpoint Cut (s : string) (sep : ascii) : option (string * string) :=
  match s with
  | EmptyString => None
  | String a s' =>
      if Ascii.eqb a sep then Some (EmptyString, s')
      else match Cut s' sep with
           | Some (h, t) => Some (String a h, t)
           | None => None
           end
  end.

(** [strings.Split(s, sep)] for a one-byte separator (both call sites
    pass one): all the pieces between the separators; a string without
    separator, the empty one included, gives the one-element list. *)
Fixpoint Split (s : string) (sep : ascii) : list string :=
  match s with
  | EmptyString => [EmptyString]
  | String a s' =>
      if Ascii.eqb a sep then EmptyString :: Split s' sep
      else match Split s' sep with
           | h :: t => String a h :: t
           | [] => [String a EmptyString]
           end
  end.

(** [strings.SplitN(s, sep, 2)] for a one-byte separator. *)
Definition SplitN2 (s : string) (sep : ascii) : list string :=
  match Cut s sep with
  | Some (h, t) => [h; t]
  | None => [s]
  end.

(** [strings.Join(elems, sep)] *)
Fixpoint Join (elems : list string) (sep : string) : string :=
  match elems with
  | [] => EmptyString
  | [e] => e
  | e :: rest => e ++ sep ++ Join rest sep
  end.

(** [asciiSpace]: tab, line feed, vertical tab, form feed, carriage
    return, space. *)
Definition asciiSpace (c : N) : bool :=
  ((c =? 9) || (c =? 10) || (c =? 11) || (c =? 12) || (c =? 13)
   || (c =? 32))%N.

(** [indexFunc(s, f, false)]: the index of the first rune of [s] that
    does not satisfy [f].  [rest] is [s[i:]]; the [for i, r := range s]
    loop decodes a rune at [i] and moves on by its width, which [skip]
    counts down here. *)
Fixpoint indexFunc_false (f : N -> bool) (rest : string) (i skip : nat)
  : option nat :=
  match rest with
  | EmptyString => None
  | String _ rest' =>
      match skip with
      | S k => indexFunc_false f rest' (S i) k
      | 0 =>
          let '(r, size) := utf8.DecodeRuneInString rest in
          if negb (f r) then Some i
          else indexFunc_false f rest' (S i) (size - 1)
      end
  end.

(** [lastIndexFunc(s, f, false)]: the index of the last rune of [s] that
    does not satisfy [f]; [for i := len(s); i > 0; ] decodes the last
    rune of [s[0:i]] and moves back by its width. *)
Fixpoint lastIndexFunc_false (f : N -> bool) (s : string) (i skip : nat)
  : option nat :=
  match i with
  | 0 => None
  | S i' =>
      match skip with
      | S k => lastIndexFunc_false f s i' k
      | 0 =>
          let '(r, size) := utf8.DecodeLastRuneInString (slice s 0 i) in
          if negb (f r) then Some (i - size)
          else lastIndexFunc_false f s i' (size - 1)
      end
  end.

(** [strings.TrimLeftFunc] *)
Definition TrimLeftFunc (s : string) (f : N -> bool) : string :=
  match indexFunc_false f s 0 0 with
  | None => EmptyString
  | Some i => slice_from s i
  end.

(** [strings.TrimRightFunc] *)
Definition TrimRightFunc (s : string) (f : N -> bool) : string :=
  match lastIndexFunc_false f s (len s) 0 with
  | Some i =>
      if (utf8.RuneSelf <=? at_ s i)%N then
        let '(_, wid) := utf8.DecodeRuneInString (slice_from s i) in
        slice s 0 (i + wid)
      else slice s 0 (S i)
  | None => slice s 0 0
  end.

(** [strings.TrimFunc] *)
Definition TrimFunc (s : string) (f : N -> bool) : string :=
  TrimRightFunc (TrimLeftFunc s f) f.

(** First loop of [TrimSpace]: the index of the first byte that is not
    an ASCII space, and whether the scan stopped on a non-ASCII byte. *)
Fixpoint scan_start (rest : string) (start : nat) : nat * bool :=
  match rest with
  | EmptyString => (start, false)
  | String c rest' =>
      if (utf8.RuneSelf <=? N_of_ascii c)%N then (start, true)
      else if asciiSpace (N_of_ascii c) then scan_start rest' (S start)
      else (start, false)
  end.

(** Second loop of [TrimSpace], from the end: the final [stop], and
    whether the scan stopped on a non-ASCII byte. *)
Fixpoint scan_stop (s : string) (start stop : nat) : nat * bool :=
  match stop with
  | 0 => (0, false)
  | S stop' =>
      if (start <? stop)%nat then
        let c := at_ s stop' in
        if (utf8.RuneSelf <=? c)%N then (stop, true)
        else if asciiSpace c then scan_stop s start stop'
        else (stop, false)
      else (stop, false)
  end.

(** [strings.TrimSpace] *)
Definition TrimSpace (s : string) : string :=
  match scan_start s 0 with
  | (start, true) => TrimFunc (slice_from s start) unicode.IsSpace
  | (start, false) =>
      match scan_stop s start (len s) with
      | (stop, true) => TrimRightFunc (slice s start stop) unicode.IsSpace
      | (stop, false) => slice s start stop
      end
  end.

(** [strings.HasPrefix]: [len(s) >= len(prefix) && s[:len(prefix)] == prefix] *)
Definition HasPrefix (s prefix : string) : bool :=
  (len prefix <=? len s)%nat && String.eqb (slice_to s (len prefix)) prefix.

(** [strings.HasSuffix] *)
Definition HasSuffix (s suffix : string) : bool :=
  (len suffix <=? len s)%nat
  && String.eqb (slice_from s (len s - len suffix)) suffix.

(** [strings.TrimPrefix] *)
Definition TrimPrefix (s prefix : string) : string :=
  if HasPrefix s prefix then slice_from s (len prefix) else s.

(** [strings.TrimSuffix] *)
Definition TrimSuffix (s suffix : string) : string :=
  if HasSuffix s suffix then slice_to s (len s - len suffix) else s.

(** First loop of [ToLower]: [(isASCII, hasUpper)]; the scan stops at
    the first non-ASCII byte. *)
Fixpoint scan_case (s : string) (hasUpper : bool) : bool * bool :=
  match s with
  | EmptyString => (true, hasUpper)
  | String c s' =>
      if (utf8.RuneSelf <=? N_of_ascii c)%N then (false, hasUpper)
      else scan_case s' (hasUpper || byte_in 65 90 c)
  end.

(** The ASCII branch of [ToLower]: every byte ['A'..'Z'] gets
    ['a' - 'A'] added, the others are copied. *)
Fixpoint lower_ascii (s : string) : string :=
  match s with
  | EmptyString => EmptyString
  | String c s' =>
      String (if byte_in 65 90 c
              then ascii_of_N ((N_of_ascii c + 32) mod 256)
              else c)
             (lower_ascii s')
  end.

(** [strings.ToLower].  The branch for a string with a non-ASCII byte,
    [Map(unicode.ToLower, s)], needs the Unicode case tables: it is the
    parameter [map_lower]. *)
Definition ToLower (map_lower : string -> string) (s : string) : string :=
  match scan_case s false with
  | (true, false) => s
  | (true, true) => lower_ascii s
  | (false, _) => map_lower s
  end.

End strings.


(* ================================================================== *)
(** * Configuration, errors and the option parser *)
(* ================================================================== *)

(** [type PluginConfig struct] *)
Record PluginConfig := mkPluginConfig {
  TemplateFile : string;
  OutputDir : string;
  PackageName : string
}.

(** An error of package [os]: the one [os.IsNotExist] recognises, or
    another one with its text. *)
Inductive oserr :=
| ENOENT
| EOther (text : string).

(** The errors of the programs, one constructor for each [fmt.Errorf]
    site; an argument is the text the site formats into the message
    ([%s] of a path, [%v] of the error of a collaborator) or the wrapped
    error of the program. *)
Inductive error :=
| ErrParamMissing                      (* parsePluginOptions: param == "" *)
| ErrTemplateFileMissing               (* parsePluginOptions: TemplateFile == "" *)
| ErrParseOptions (cause : error)      (* main *)
| ErrTemplateNotExist (path : string)  (* loadTemplate, os.IsNotExist *)
| ErrReadTemplate (cause : oserr)      (* loadTemplate, os.ReadFile *)
| ErrLoadTemplate (cause : error)      (* generateServiceRegistry *)
| ErrParseTemplate (cause : string)
| ErrExecTemplate (cause : string)
| ErrFormat (cause : string)
| ErrWrite (cause : string).

(** A Go result [(T, error)]. *)
Inductive result (A : Type) :=
| Ok (a : A)
| Err (e : error).
Arguments Ok {A} a.
Arguments Err {A} e.

Definition defaultConfig : PluginConfig :=
  {| TemplateFile := "";
     OutputDir := "local_service_center";
     PackageName := "local_service_center" |}.

(** The body of the [for _, pair := range pairs] loop of
    [parsePluginOptions]: the configuration after one entry. *)
Definition parsePair (config : PluginConfig) (pair : string) : PluginConfig :=
  match strings.SplitN2 pair "="%char with
  | [k; v] =>
      let key := strings.TrimSpace k in
      let value := strings.TrimSpace v in
      if String.eqb key "template_file" then
        {| TemplateFile := value;
           OutputDir := OutputDir config;
           PackageName := PackageName config |}
      else if String.eqb key "output_dir" then
        {| TemplateFile := TemplateFile config;
           OutputDir := value;
           PackageName := PackageName config |}
      else if String.eqb key "package_name" then
        {| TemplateFile := TemplateFile config;
           OutputDir := OutputDir config;
           PackageName := value |}
      else config
  | _ => config                         (* len(kv) != 2: continue *)
  end.

(** [func parsePluginOptions(param string)]: the configuration, or an
    error. *)
Definition parsePluginOptions (param : string) : result PluginConfig :=
  if String.eqb param "" then Err ErrParamMissing
  else
    let pairs := strings.Split param ","%char in
    let config := fold_left parsePair pairs defaultConfig in
    if String.eqb (TemplateFile config) "" then Err ErrTemplateFileMissing
    else Ok config.


(* ================================================================== *)
(** * Package path/filepath (Unix: the separator is the slash) *)
(* ================================================================== *)

Module filepath.

Definition Separator : ascii := "/"%char.
Definition IsPathSeparator (c : ascii) : bool := Ascii.eqb c Separator.

(** The first byte of [s] is a separator, or [s] is empty:
    [r+1 == n || os.IsPathSeparator(path[r+1])] with [s = path[r+1:]]. *)
Definition at_end_or_sep (s : string) : bool :=
  match s with
  | EmptyString => true
  | String c _ => IsPathSeparator c
  end.

(** The bytes of [s] up to its first separator: what the innermost loop
    of [Clean] copies for a real path element. *)
Fixpoint element (s : string) : string :=
  match s with
  | EmptyString => EmptyString
  | String c s' => if IsPathSeparator c then EmptyString else String c (element s')
  end.

(** The [..] case when [out.w > dotdot]:
    [out.w--; for out.w > dotdot && !os.IsPathSeparator(out.index(out.w)) { out.w-- }],
    entered with [w] already decremented; the result is the final
    [out.w]. *)
Fixpoint backtrack (out : string) (w dotdot : nat) : nat :=
  match w with
  | 0 => 0
  | S w' =>
      if (dotdot <? w)%nat
         && negb (IsPathSeparator (ascii_of_N (at_ out w)))
      then backtrack out w' dotdot
      else w
  end.

(** The main loop of [Clean].  [rest] is [path[r:]]; [out] is the text
    written so far ([out.w] is its length); a case that moves [r] by more
    than one byte sets [skip] to the number of further bytes to pass. *)
Fixpoint Clean_loop (rooted : bool) (rest : string) (skip : nat)
         (out : string) (dotdot : nat) : string :=
  match rest with
  | EmptyString => out
  | String c rest' =>
      match skip with
      | S k => Clean_loop rooted rest' k out dotdot
      | 0 =>
          if IsPathSeparator c then
            (* empty path element *)
            Clean_loop rooted rest' 0 out dotdot
          else if Ascii.eqb c "."%char && at_end_or_sep rest' then
            (* . element *)
            Clean_loop rooted rest' 0 out dotdot
          else if Ascii.eqb c "."%char
                  && match rest' with
                     | String c1 rest'' =>
                         Ascii.eqb c1 "."%char && at_end_or_sep rest''
                     | EmptyString => false
                     end then
            (* .. element: remove to last separator *)
            if (dotdot <? len out)%nat then
              Clean_loop rooted rest' 1
                (slice out 0 (backtrack out (len out - 1) dotdot)) dotdot
            else if negb rooted then
              let out' :=
                (if (0 <? len out)%nat then out ++ "/" else out) ++ ".." in
              Clean_loop rooted rest' 1 out' (len out')
            else Clean_loop rooted rest' 1 out dotdot
          else
            (* real path element: add slash if needed, copy element *)
            let out' :=
              if (rooted && negb (len out =? 1)%nat)
                 || (negb rooted && negb (len out =? 0)%nat)
              then out ++ "/" else out in
            let e := element rest in
            Clean_loop rooted rest' (len e - 1) (out' ++ e) dotdot
      end
  end.

(** [filepath.Clean] *)
Definition Clean (path : string) : string :=
  match path with
  | EmptyString => "."
  | String c path' =>
      let rooted := IsPathSeparator c in
      let out :=
        if rooted then Clean_loop true path' 0 "/" 1
        else Clean_loop false path 0 "" 0 in
      if (len out =? 0)%nat then "." else out
  end.

(** [filepath.Join]: the elements from the first non-empty one on,
    joined by the separator and cleaned; the empty string when every
    element is empty. *)
Fixpoint Join (elem : list string) : string :=
  match elem with
  | [] => EmptyString
  | e :: rest =>
      if String.eqb e "" then Join rest
      else Clean (strings.Join elem "/")
  end.

End filepath.


(* ================================================================== *)
(** * The collaborators: filesystem, template engine, formatter, host *)
(* ================================================================== *)

Definition os_IsNotExist (e : option oserr) : bool :=
  match e with
  | Some ENOENT => true
  | _ => false
  end.

(** What the filesystem holds at a path during one run: nothing, or a
    node for which [stat] fails (for a reason other than absence) or
    not, and whose content can be read or not. *)
Inductive fsnode :=
| Absent
| Present (stat_error : option string) (read : string + string).

(** The outcome of a call to a collaborator that can fail with a
    message. *)
Inductive outcome (A : Type) :=
| Done (a : A)
| Failed (text : string).
Arguments Done {A} a.
Arguments Failed {A} text.

(** The value handed to [Template.Execute]: the exported fields of the
    struct, by name, which is what the template can reach. *)
Definition TemplateData := list (string * string).

Record Env := mkEnv {
  fs : string -> fsnode;
  Template : Type;
  template_Parse : string -> outcome Template;
  template_Execute : Template -> TemplateData -> outcome string;
  format_Source : string -> outcome string;
  (* [GeneratedFile.Write]: the error it returns, if any *)
  buffer_Write : string -> option string;
  (* [strings.Map(unicode.ToLower, s)] *)
  map_lower : string -> string
}.

(** The calls a run makes to its collaborators, in order. *)
Inductive Call :=
| CallStat (path : string)
| CallReadFile (path : string)
| CallParse (text : string)
| CallExecute (data : TemplateData)
| CallFormat (text : string)
| CallNewGeneratedFile (path : string)
| CallWrite (g : nat) (p : string).

(** The mutable part of [*protogen.Plugin]: the generated files
    registered so far, each a path and the content of its buffer, and
    the journal of the calls made. *)
Record Plugin := mkPlugin {
  genFiles : list (string * string);
  calls : list Call
}.

Definition emptyPlugin : Plugin := {| genFiles := []; calls := [] |}.

(** Descriptors handed over by the host. *)
Record Service := mkService {
  Desc_Name : string
}.

Record File := mkFile {
  Generate : bool;
  GoPackageName : string;
  GoImportPath : string;
  Services : list Service
}.

Record Request := mkRequest {
  Request_Parameter : option string;
  Files : list File
}.

(** ** The monad of the run: state of the plugin, and errors *)

Definition M (A : Type) : Type := Plugin -> result A * Plugin.

Definition ret {A} (a : A) : M A := fun st => (Ok a, st).
Definition fail {A} (e : error) : M A := fun st => (Err e, st).
Definition bind {A B} (m : M A) (k : A -> M B) : M B :=
  fun st =>
    match m st with
    | (Ok a, st') => k a st'
    | (Err e, st') => (Err e, st')
    end.

Declare Scope go_scope.
Delimit Scope go_scope with go.
Notation "x <- m ;; k" := (bind m (fun x => k))
  (at level 61, m at next level, right associativity) : go_scope.
Notation "m ;;; k" := (bind m (fun _ => k))
  (at level 61, right associativity) : go_scope.
Local Open Scope go_scope.

Definition log (c : Call) : M unit :=
  fun st => (Ok tt, {| genFiles := genFiles st; calls := calls st ++ [c] |}%list).

(** [for _, x := range l { if err := body(x); err != nil { return err } }] *)
Fixpoint forEach {A} (l : list A) (body : A -> M unit) : M unit :=
  match l with
  | [] => ret tt
  | x :: rest => body x ;;; forEach rest body
  end.

(** Replace the element at index [i]; out of range changes nothing (a
    handle always comes from [NewGeneratedFile], so it is in range). *)
Fixpoint update {A} (l : list A) (i : nat) (f : A -> A) : list A :=
  match l, i with
  | [], _ => []
  | x :: rest, 0 => f x :: rest
  | x :: rest, S i' => x :: update rest i' f
  end.

Section Primitives.
Variable E : Env.

(** [os.Stat(path)], its error only. *)
Definition os_Stat (path : string) : M (option oserr) :=
  log (CallStat path) ;;;
  ret (match fs E path with
       | Absent => Some ENOENT
       | Present (Some text) _ => Some (EOther text)
       | Present None _ => None
       end).

(** [os.ReadFile(path)] *)
Definition os_ReadFile (path : string) : M (oserr + string) :=
  log (CallReadFile path) ;;;
  ret (match fs E path with
       | Absent => inl ENOENT
       | Present _ (inl text) => inl (EOther text)
       | Present _ (inr content) => inr content
       end).

(** [template.New("service_registry").Parse(text)] *)
Definition Parse (text : string) : M (outcome (Template E)) :=
  log (CallParse text) ;;; ret (template_Parse E text).

(** [tmpl.Execute(&buf, data)] with the content of [buf] afterwards *)
Definition Execute (tmpl : Template E) (data : TemplateData)
  : M (outcome string) :=
  log (CallExecute data) ;;; ret (template_Execute E tmpl data).

(** [format.Source(src)] *)
Definition Source (src : string) : M (outcome string) :=
  log (CallFormat src) ;;; ret (format_Source E src).

(** [gen.NewGeneratedFile(path, "")]: registers a file with an empty
    buffer and returns its handle, the index in [genFiles]. *)
Definition NewGeneratedFile (path : string) : M nat :=
  fun st =>
    (Ok (List.length (genFiles st)),
     {| genFiles := (genFiles st ++ [(path, "")])%list;
        calls := (calls st ++ [CallNewGeneratedFile path])%list |}).

(** [g.Write(p)]: appends to the buffer of [g], unless it fails. *)
Definition Write (g : nat) (p : string) : M (option string) :=
  fun st =>
    match buffer_Write E p with
    | Some text =>
        (Ok (Some text),
         {| genFiles := genFiles st;
            calls := (calls st ++ [CallWrite g p])%list |})
    | None =>
        (Ok None,
         {| genFiles := update (genFiles st) g (fun f => (fst f, snd f ++ p));
            calls := (calls st ++ [CallWrite g p])%list |})
    end.

(** [func loadTemplate(config *PluginConfig) (string, error)] *)
Definition loadTemplate (config : PluginConfig) : M string :=
  err <- os_Stat (TemplateFile config) ;;
  if os_IsNotExist err then fail (ErrTemplateNotExist (TemplateFile config))
  else
    r <- os_ReadFile (TemplateFile config) ;;
    match r with
    | inl e => fail (ErrReadTemplate e)
    | inr content => ret content
    end.

End Primitives.

(** [if err != nil { return fmt.Errorf("...: %v", err) }] around a call
    of the program's own: the error is wrapped. *)
Definition wrapErr {A} (w : error -> error) (m : M A) : M A :=
  fun st =>
    match m st with
    | (Err e, st') => (Err (w e), st')
    | r => r
    end.

(** The same around a call to a collaborator. *)
Definition orFail {A} (w : string -> error) (m : M (outcome A)) : M A :=
  r <- m ;;
  match r with
  | Done a => ret a
  | Failed text => fail (w text)
  end.

(** The function handed to [protogen.Options{}.Run] by [main], which is
    the same text in both programs; [generate] is the program's
    [generateServiceRegistry]. *)
Definition run (generate : File -> Service -> PluginConfig -> M unit)
           (gen : Request) : M unit :=
  let param :=
    match Request_Parameter gen with
    | Some p => p
    | None => ""
    end in
  match parsePluginOptions param with
  | Err err => fail (ErrParseOptions err)
  | Ok config =>
      forEach (Files gen) (fun f =>
        if negb (Generate f) then ret tt          (* continue *)
        else forEach (Services f) (fun service => generate f service config))
  end.

(* ================================================================== *)
(** * The first program, [main.go] *)
(* ================================================================== *)

Module MainGo.

(** [type ServiceInfo struct] *)
Record ServiceInfo := mkServiceInfo {
  si_PackageName : string;
  si_ServiceName : string;
  si_ProtoPackageName : string
}.

Definition fields (d : ServiceInfo) : TemplateData :=
  [("PackageName", si_PackageName d);
   ("ServiceName", si_ServiceName d);
   ("ProtoPackageName", si_ProtoPackageName d)].

(** The local [protoPackageName] of [generateServiceRegistry]. *)
Definition protoPackageName (GoPackageName : string) : string :=
  let protoPackageName := strings.TrimPrefix GoPackageName "proto_" in
  if String.eqb protoPackageName GoPackageName
  then strings.TrimPrefix GoPackageName "proto."
  else protoPackageName.

(** The local [serviceName]. *)
Definition serviceName (name : string) : string :=
  strings.TrimSuffix name "Service".

Section Program.
Variable E : Env.

(** The local [fileName]: [fmt.Sprintf("%s.go", strings.ToLower(serviceName))] *)
Definition fileName (serviceName : string) : string :=
  strings.ToLower (map_lower E) serviceName ++ ".go".

(** The local [outputPath]. *)
Definition outputPath (config : PluginConfig) (serviceName : string) : string :=
  filepath.Join [OutputDir config; fileName serviceName].

Definition generateServiceRegistry
           (file : File) (service : Service) (config : PluginConfig) : M unit :=
  let protoPackageName := protoPackageName (GoPackageName file) in
  let serviceName := serviceName (Desc_Name service) in
  let data :=
    {| si_PackageName := PackageName config;
       si_ServiceName := serviceName;
       si_ProtoPackageName := protoPackageName |} in
  tmplContent <- wrapErr ErrLoadTemplate (loadTemplate E config) ;;
  tmpl <- orFail ErrParseTemplate (Parse E tmplContent) ;;
  buf <- orFail ErrExecTemplate (Execute E tmpl (fields data)) ;;
  formatted <- orFail ErrFormat (Source E buf) ;;
  g <- NewGeneratedFile (outputPath config serviceName) ;;
  err <- Write E g formatted ;;
  match err with
  | Some text => fail (ErrWrite text)
  | None => ret tt
  end.

Definition main (gen : Request) : M unit := run generateServiceRegistry gen.

End Program.
End MainGo.

(* ================================================================== *)
(** * The second program *)
(* ================================================================== *)

Module Part000.

(** [type ServiceInfo struct] *)
Record ServiceInfo := mkServiceInfo {
  si_PackageName : string;
  si_ServiceName : string;
  si_ProtoPackageName : string;
  si_ProtoImportPath : string
}.

Definition fields (d : ServiceInfo) : TemplateData :=
  [("PackageName", si_PackageName d);
   ("ServiceName", si_ServiceName d);
   ("ProtoPackageName", si_ProtoPackageName d);
   ("ProtoImportPath", si_ProtoImportPath d)].

(** [string(b)] for a byte [b]: the UTF-8 encoding of the code point
    [b]. *)
Definition string_of_byte (b : N) : string :=
  if (b <? 128)%N then String (ascii_of_N b) ""
  else String (ascii_of_N (N.lor 192 (N.shiftr b 6)))
         (String (ascii_of_N (N.lor 128 (N.land b 63))) "").

(** [func toCamelCase(s string) string] *)
Definition toCamelCase (s : string) : string :=
  if (len s =? 0)%nat then s
  else
    let first := at_ s 0 in
    if ((65 <=? first) && (first <=? 90))%N then
      string_of_byte ((first + 32) mod 256) ++ slice_from s 1
    else s.

(** The local [serviceName]. *)
Definition serviceName (name : string) : string :=
  strings.TrimSuffix name "Service".

(** The local [fileName]: [fmt.Sprintf("%s.go", toCamelCase(serviceName))] *)
Definition fileName (serviceName : string) : string :=
  toCamelCase serviceName ++ ".go".

(** The local [outputPath]. *)
Definition outputPath (config : PluginConfig) (serviceName : string) : string :=
  filepath.Join [OutputDir config; fileName serviceName].

Section Program.
Variable E : Env.

Definition generateServiceRegistry
           (file : File) (service : Service) (config : PluginConfig) : M unit :=
  let protoImportPath := GoImportPath file in
  let protoPackageName := GoPackageName file in
  let serviceName := serviceName (Desc_Name service) in
  let data :=
    {| si_PackageName := PackageName config;
       si_ServiceName := serviceName;
       si_ProtoPackageName := protoPackageName;
       si_ProtoImportPath := protoImportPath |} in
  tmplContent <- wrapErr ErrLoadTemplate (loadTemplate E config) ;;
  tmpl <- orFail ErrParseTemplate (Parse E tmplContent) ;;
  buf <- orFail ErrExecTemplate (Execute E tmpl (fields data)) ;;
  formatted <- orFail ErrFormat (Source E buf) ;;
  g <- NewGeneratedFile (outputPath config serviceName) ;;
  err <- Write E g formatted ;;
  match err with
  | Some text => fail (ErrWrite text)
  | None => ret tt
  end.

Definition main (gen : Request) : M unit := run generateServiceRegistry gen.

End Program.
End Part000.


(* ================================================================== *)
(** * Vocabulary of the statements *)
(* ================================================================== *)

(** What the parser reads of one entry of the parameter string: the
    trimmed key and value, or nothing for an entry without [=]. *)
Definition entry (pair : string) : option (string * string) :=
  match strings.SplitN2 pair "="%char with
  | [k; v] => Some (strings.TrimSpace k, strings.TrimSpace v)
  | _ => None
  end.

Definition recognized (key : string) : bool :=
  String.eqb key "template_file" || String.eqb key "output_dir"
  || String.eqb key "package_name".

(** The field of the configuration a recognised key names. *)
Definition field (key : string) (config : PluginConfig) : option string :=
  if String.eqb key "template_file" then Some (TemplateFile config)
  else if String.eqb key "output_dir" then Some (OutputDir config)
  else if String.eqb key "package_name" then Some (PackageName config)
  else None.

(** An entry does not set [key]. *)
Definition silent (key : string) (pair : string) : Prop :=
  forall value, entry pair <> Some (key, value).

Definition comma_free (s : string) : Prop := contains ","%char s = false.

Definition fields_comma_free (config : PluginConfig) : Prop :=
  comma_free (TemplateFile config)
  /\ comma_free (OutputDir config)
  /\ comma_free (PackageName config).

(** Every byte of [s] is below [utf8.RuneSelf]. *)
Fixpoint all_ascii (s : string) : bool :=
  match s with
  | EmptyString => true
  | String c s' => (N_of_ascii c <? 128)%N && all_ascii s'
  end.

(** A path element that [filepath.Clean] copies as it is: not empty,
    without separator, and neither [.] nor [..]. *)
Definition plain (e : string) : bool :=
  negb (String.eqb e "") && negb (contains "/"%char e)
  && negb (String.eqb e ".") && negb (String.eqb e "..").

(** The services a run generates for, in the order of the run. *)
Definition eligible (files : list File) : list (File * Service) :=
  flat_map (fun f => if Generate f then map (pair f) (Services f) else [])
           files.

(** The parameter string [main] parses: [*gen.Request.Parameter], or the
    empty string for [nil]. *)
Definition paramOf (gen : Request) : string :=
  match Request_Parameter gen with
  | Some p => p
  | None => ""
  end.

(** The services [done] have been processed one after the other without
    error, which took the plugin from [st] to [st']. *)
Definition processed (generate : File -> Service -> PluginConfig -> M unit)
           (config : PluginConfig) (done : list (File * Service))
           (st st' : Plugin) : Prop :=
  forEach done (fun p => generate (fst p) (snd p) config) st = (Ok tt, st').


(** ** Concrete collaborators and requests *)

(** A filesystem with one template, an engine that appends the service
    name to the template and rejects the service name ["Bad"], a
    formatter that keeps the text. *)
Definition demoEnv : Env :=
  {| fs := fun p =>
       if String.eqb p "t.tmpl" then Present None (inr "package x // ")
       else if String.eqb p "secret.tmpl" then Present None (inl "permission denied")
       else Absent;
     Template := string;
     template_Parse := fun text => Done text;
     template_Execute := fun tmpl data =>
       match data with
       | _ :: (_, name) :: _ =>
           if String.eqb name "Bad" then Failed "can't evaluate field"
           else Done (tmpl ++ name)
       | _ => Failed "no data"
       end;
     format_Source := fun src => Done src;
     buffer_Write := fun _ => None;
     map_lower := fun s => s |}.

Definition demoConfig : PluginConfig :=
  {| TemplateFile := "t.tmpl"; OutputDir := "out"; PackageName := "pkg" |}.

Definition demoParam : string :=
  "template_file=t.tmpl,output_dir=out,package_name=pkg".

Definition orderFile : File :=
  {| Generate := true; GoPackageName := "proto_order";
     GoImportPath := "example.com/gen/order";
     Services := [ {| Desc_Name := "OrderService" |};
                   {| Desc_Name := "PrepareOrderService" |} ] |}.

Definition badFile : File :=
  {| Generate := true; GoPackageName := "bad";
     GoImportPath := "example.com/gen/bad";
     Services := [ {| Desc_Name := "UserService" |};
                   {| Desc_Name := "BadService" |};
                   {| Desc_Name := "LateService" |} ] |}.

Definition depFile : File :=
  {| Generate := false; GoPackageName := "dep";
     GoImportPath := "example.com/gen/dep";
     Services := [ {| Desc_Name := "DepService" |} ] |}.

Definition demoRequest (files : list File) : Request :=
  {| Request_Parameter := Some demoParam; Files := files |}.

(** The services that come before [BadService] in a run over
    [orderFile], [depFile], [badFile]. *)
Definition servicesBeforeBad : list (File * Service) :=
  [(orderFile, {| Desc_Name := "OrderService" |});
   (orderFile, {| Desc_Name := "PrepareOrderService" |});
   (badFile, {| Desc_Name := "UserService" |})].

(** The plugin of [main.go] after those services, from the empty
    plugin. *)
Definition stateBeforeBad : Plugin :=
  Eval vm_compute in
    snd (forEach servicesBeforeBad
           (fun p => MainGo.generateServiceRegistry demoEnv (fst p) (snd p)
                       demoConfig)
           emptyPlugin).

(** The plugin after the failed call for [BadService]. *)
Definition stateAtBad : Plugin :=
  Eval vm_compute in
    snd (MainGo.generateServiceRegistry demoEnv badFile
           {| Desc_Name := "BadService" |} demoConfig stateBeforeBad).

(** ** Vocabulary of the further properties *)

(** An entry the parser passes over: it has no [=], or its key is not
    one of the three. *)
Definition ignored (pair : string) : Prop :=
  match entry pair with
  | None => True
  | Some (key, _) => recognized key = false
  end.

(** The parameter string that spells a configuration out, key by key. *)
Definition encode (config : PluginConfig) : string :=
  "template_file=" ++ TemplateFile config
  ++ ",output_dir=" ++ OutputDir config
  ++ ",package_name=" ++ PackageName config.

(** A value that trimming keeps. *)
Definition trimmed (s : string) : Prop := strings.TrimSpace s = s.

(** A string of ASCII white space only. *)
Fixpoint spaces (s : string) : bool :=
  match s with
  | EmptyString => true
  | String c s' => strings.asciiSpace (N_of_ascii c) && spaces s'
  end.

(** An ASCII byte that is not white space. *)
Definition solid (c : ascii) : bool :=
  (N_of_ascii c <? 128)%N && negb (strings.asciiSpace (N_of_ascii c)).

Fixpoint last_byte (s : string) : option ascii :=
  match s with
  | EmptyString => None
  | String c EmptyString => Some c
  | String _ s' => last_byte s'
  end.

(** A text that begins and ends with an ASCII byte that is not white
    space; what is between the two is free. *)
Definition tight (s : string) : bool :=
  match s, last_byte s with
  | String c _, Some d => solid c && solid d
  | _, _ => false
  end.

(** The text a call of [generateServiceRegistry] has in hand when it
    reaches [gen.NewGeneratedFile], or the error of the step that fails
    before: the steps read as one expression over the collaborators. *)
Definition rendered (E : Env) (config : PluginConfig) (data : TemplateData)
  : result string :=
  match fs E (TemplateFile config) with
  | Absent => Err (ErrLoadTemplate (ErrTemplateNotExist (TemplateFile config)))
  | Present _ (inl text) =>
      Err (ErrLoadTemplate (ErrReadTemplate (EOther text)))
  | Present _ (inr content) =>
      match template_Parse E content with
      | Failed text => Err (ErrParseTemplate text)
      | Done tmpl =>
          match template_Execute E tmpl data with
          | Failed text => Err (ErrExecTemplate text)
          | Done buf =>
              match format_Source E buf with
              | Failed text => Err (ErrFormat text)
              | Done formatted => Ok formatted
              end
          end
      end
  end.

(** The data [main.go] gives the template for a service. *)
Definition dataMainGo (config : PluginConfig) (file : File) (service : Service)
  : TemplateData :=
  [("PackageName", PackageName config);
   ("ServiceName", strings.TrimSuffix (Desc_Name service) "Service");
   ("ProtoPackageName", MainGo.protoPackageName (GoPackageName file))].

(** The data the second program gives the template for a service. *)
Definition dataPart000 (config : PluginConfig) (file : File) (service : Service)
  : TemplateData :=
  [("PackageName", PackageName config);
   ("ServiceName", strings.TrimSuffix (Desc_Name service) "Service");
   ("ProtoPackageName", GoPackageName file);
   ("ProtoImportPath", GoImportPath file)].

(** The paths read with [os.ReadFile], in the order of the calls. *)
Fixpoint reads (cs : list Call) : list string :=
  match cs with
  | [] => []
  | CallReadFile path :: rest => path :: reads rest
  | _ :: rest => reads rest
  end.

(** The data of the calls of [Template.Execute], in the order of the
    calls. *)
Fixpoint executed (cs : list Call) : list TemplateData :=
  match cs with
  | [] => []
  | CallExecute data :: rest => data :: executed rest
  | _ :: rest => executed rest
  end.

(* ================================================================== *)
(** * Lemmas on strings and slices *)
(* ================================================================== *)

Section StringFacts.

Lemma length_append (a b : string) :
  String.length (a ++ b) = String.length a + String.length b.
Proof. induction a as [|c a IH]; simpl; [reflexivity | now rewrite IH]. Qed.

Lemma append_empty_r (a : string) : a ++ "" = a.
Proof. induction a as [|c a IH]; simpl; [reflexivity | now rewrite IH]. Qed.

Lemma append_assoc (a b c : string) : (a ++ b) ++ c = a ++ (b ++ c).
Proof. induction a as [|x a IH]; simpl; [reflexivity | now rewrite IH]. Qed.

Lemma substring_0_0 (s : string) : String.substring 0 0 s = "".
Proof. destruct s; reflexivity. Qed.

Lemma substring_whole (s : string) :
  String.substring 0 (String.length s) s = s.
Proof. induction s as [|c s IH]; simpl; [reflexivity | now rewrite IH]. Qed.

Lemma substring_head (a b : string) :
  String.substring 0 (String.length a) (a ++ b) = a.
Proof.
  induction a as [|c a IH]; simpl.
  - apply substring_0_0.
  - now rewrite IH.
Qed.

Lemma substring_tail (a b : string) :
  String.substring (String.length a) (String.length b) (a ++ b) = b.
Proof.
  induction a as [|c a IH]; simpl.
  - apply substring_whole.
  - exact IH.
Qed.

(** A string is its slice up to [n] followed by the rest. *)
Lemma substring_split (s : string) (n : nat) :
  n <= String.length s ->
  s = String.substring 0 n s ++ String.substring n (String.length s - n) s.
Proof.
  revert n; induction s as [|c s IH]; intros n Hn; simpl in *.
  - destruct n; [reflexivity | lia].
  - destruct n as [|n]; simpl.
    + now rewrite substring_whole.
    + f_equal. apply IH. lia.
Qed.

Lemma contains_append (c : ascii) (a b : string) :
  contains c (a ++ b) = contains c a || contains c b.
Proof.
  induction a as [|x a IH]; simpl; [reflexivity|].
  rewrite IH. now rewrite orb_assoc.
Qed.

Lemma contains_substring (c : ascii) (s : string) (n m : nat) :
  contains c (String.substring n m s) = true -> contains c s = true.
Proof.
  revert n m; induction s as [|x s IH]; intros n m H.
  - destruct n, m; simpl in H; discriminate.
  - destruct n as [|n].
    + destruct m as [|m]; simpl in H; [discriminate|].
      simpl. apply orb_true_iff in H. destruct H as [H|H].
      * now rewrite H.
      * rewrite (IH _ _ H). apply orb_true_r.
    + simpl in H. simpl. rewrite (IH _ _ H). apply orb_true_r.
Qed.

End StringFacts.

Lemma sub_refl s : sub s s.
Proof. intros c H; exact H. Qed.

Lemma sub_trans a b c : sub a b -> sub b c -> sub a c.
Proof. intros H1 H2 x Hx. apply H2, H1, Hx. Qed.

Lemma sub_slice s i j : sub (slice s i j) s.
Proof. intros c H. unfold slice in H. eapply contains_substring, H. Qed.

Lemma sub_empty s : sub "" s.
Proof. intros c H; discriminate. Qed.

Lemma sub_free c t s : sub t s -> contains c s = false -> contains c t = false.
Proof.
  intros H Hs. destruct (contains c t) eqn:Ht; [|reflexivity].
  rewrite (H _ Ht) in Hs. discriminate.
Qed.

Create HintDb substr.
#[local] Hint Resolve sub_refl sub_slice sub_empty : substr.

(** ** Prefixes and suffixes *)

Lemma HasPrefix_append (p r : string) : strings.HasPrefix (p ++ r) p = true.
Proof.
  unfold strings.HasPrefix, slice_to, slice, len.
  rewrite length_append, Nat.sub_0_r, substring_head, String.eqb_refl.
  rewrite andb_true_r. apply Nat.leb_le. lia.
Qed.

Lemma HasPrefix_inv (s p : string) :
  strings.HasPrefix s p = true -> exists r, s = p ++ r.
Proof.
  unfold strings.HasPrefix, slice_to, slice, len. intros H.
  apply andb_true_iff in H. destruct H as [Hl He].
  apply Nat.leb_le in Hl. apply String.eqb_eq in He.
  rewrite Nat.sub_0_r in He.
  exists (String.substring (String.length p) (String.length s - String.length p) s).
  rewrite <- He at 1. now apply substring_split.
Qed.

Lemma TrimPrefix_append (p r : string) : strings.TrimPrefix (p ++ r) p = r.
Proof.
  unfold strings.TrimPrefix. rewrite HasPrefix_append.
  unfold slice_from, slice, len. rewrite length_append.
  replace (String.length p + String.length r - String.length p)
    with (String.length r) by lia.
  apply substring_tail.
Qed.

Lemma TrimPrefix_absent (s p : string) :
  (forall r, s <> p ++ r) -> strings.TrimPrefix s p = s.
Proof.
  intros H. unfold strings.TrimPrefix.
  destruct (strings.HasPrefix s p) eqn:Hp; [|reflexivity].
  destruct (HasPrefix_inv _ _ Hp) as [r Hr]. now elim (H r).
Qed.

Lemma HasSuffix_append (b suf : string) : strings.HasSuffix (b ++ suf) suf = true.
Proof.
  unfold strings.HasSuffix, slice_from, slice, len.
  rewrite length_append.
  replace (String.length b + String.length suf - String.length suf)
    with (String.length b) by lia.
  replace (String.length b + String.length suf - String.length b)
    with (String.length suf) by lia.
  rewrite substring_tail, String.eqb_refl, andb_true_r.
  apply Nat.leb_le. lia.
Qed.

Lemma HasSuffix_inv (s suf : string) :
  strings.HasSuffix s suf = true -> exists b, s = b ++ suf.
Proof.
  unfold strings.HasSuffix, slice_from, slice, len. intros H.
  apply andb_true_iff in H. destruct H as [Hl He].
  apply Nat.leb_le in Hl. apply String.eqb_eq in He.
  exists (String.substring 0 (String.length s - String.length suf) s).
  rewrite <- He at 2.
  rewrite (substring_split s (String.length s - String.length suf)) at 1 by lia.
  reflexivity.
Qed.

Lemma TrimSuffix_append (b suf : string) : strings.TrimSuffix (b ++ suf) suf = b.
Proof.
  unfold strings.TrimSuffix. rewrite HasSuffix_append.
  unfold slice_to, slice, len. rewrite length_append.
  replace (String.length b + String.length suf - String.length suf - 0)
    with (String.length b) by lia.
  apply substring_head.
Qed.

Lemma TrimSuffix_absent (s suf : string) :
  (forall b, s <> b ++ suf) -> strings.TrimSuffix s suf = s.
Proof.
  intros H. unfold strings.TrimSuffix.
  destruct (strings.HasSuffix s suf) eqn:Hp; [|reflexivity].
  destruct (HasSuffix_inv _ _ Hp) as [b Hb]. now elim (H b).
Qed.

(* ================================================================== *)
(** * Naming: the service name, the package name, the file name *)
(* ================================================================== *)

(** C2: the derived service name is the declared name without one
    trailing ["Service"], and the declared name itself when it does not
    end in ["Service"]; the name ["Service"] gives the empty string, and
    of two trailing occurrences one is kept.  Both programs agree. *)
Theorem serviceName_strips_one_suffix :
  (forall base,
      MainGo.serviceName (base ++ "Service") = base
      /\ Part000.serviceName (base ++ "Service") = base)
  /\ (forall name,
         (forall base, name <> base ++ "Service") ->
         MainGo.serviceName name = name /\ Part000.serviceName name = name)
  /\ (MainGo.serviceName "Service" = "" /\ Part000.serviceName "Service" = "")
  /\ (forall base,
         MainGo.serviceName (base ++ "ServiceService") = base ++ "Service"
         /\ Part000.serviceName (base ++ "ServiceService") = base ++ "Service").
Proof.
  unfold MainGo.serviceName, Part000.serviceName.
  repeat split.
  - apply TrimSuffix_append.
  - apply TrimSuffix_append.
  - now apply TrimSuffix_absent.
  - now apply TrimSuffix_absent.
  - change (base ++ "ServiceService") with (base ++ ("Service" ++ "Service")).
    rewrite <- append_assoc. apply TrimSuffix_append.
  - change (base ++ "ServiceService") with (base ++ ("Service" ++ "Service")).
    rewrite <- append_assoc. apply TrimSuffix_append.
Qed.

Lemma proto_dot_not_underscore (r : string) :
  strings.HasPrefix ("proto." ++ r) "proto_" = false.
Proof.
  unfold strings.HasPrefix, slice_to, slice.
  change (len "proto_") with (len "proto.").
  unfold len. rewrite Nat.sub_0_r, substring_head. simpl.
  rewrite ?andb_false_r. reflexivity.
Qed.

Lemma append_longer (p r : string) : p <> "" -> r <> p ++ r.
Proof.
  intros Hp H. apply (f_equal String.length) in H.
  rewrite length_append in H. destruct p; [now elim Hp | simpl in H; lia].
Qed.

(** What [TrimPrefix] leaves of a string with the prefix is shorter, so
    the comparison [protoPackageName == string(file.GoPackageName)]
    holds exactly when the prefix ["proto_"] is absent. *)
Lemma TrimPrefix_unchanged_iff (s p : string) :
  p <> "" -> (strings.TrimPrefix s p = s <-> strings.HasPrefix s p = false).
Proof.
  intros Hp. split.
  - intros H. destruct (strings.HasPrefix s p) eqn:E; [|reflexivity].
    destruct (HasPrefix_inv _ _ E) as [r ->].
    rewrite TrimPrefix_append in H. now elim (append_longer p r Hp).
  - intros H. unfold strings.TrimPrefix. now rewrite H.
Qed.

Lemma protoPackageName_cases (p : string) :
  MainGo.protoPackageName p =
  if strings.HasPrefix p "proto_" then strings.TrimPrefix p "proto_"
  else strings.TrimPrefix p "proto.".
Proof.
  unfold MainGo.protoPackageName.
  destruct (strings.HasPrefix p "proto_") eqn:E.
  - destruct (String.eqb_spec (strings.TrimPrefix p "proto_") p) as [H|H];
      [|reflexivity].
    apply TrimPrefix_unchanged_iff in H; [congruence | discriminate].
  - assert (H : strings.TrimPrefix p "proto_" = p)
      by (apply TrimPrefix_unchanged_iff; [discriminate | exact E]).
    rewrite H, String.eqb_refl. reflexivity.
Qed.

(** C3: the package name of [main.go] is the package identifier without
    its leading ["proto_"]; the prefix ["proto."] is tried exactly when
    stripping ["proto_"] changed nothing; an identifier with neither
    prefix is kept, and so is it when the derivation is applied again;
    whatever the identifier, at most one prefix is removed. *)
Theorem protoPackageName_strips_one_prefix :
  (forall r, MainGo.protoPackageName ("proto_" ++ r) = r)
  /\ (forall p,
         (strings.TrimPrefix p "proto_" = p ->
          MainGo.protoPackageName p = strings.TrimPrefix p "proto.")
         /\ (strings.TrimPrefix p "proto_" <> p ->
             MainGo.protoPackageName p = strings.TrimPrefix p "proto_"))
  /\ (forall r, MainGo.protoPackageName ("proto." ++ r) = r)
  /\ (forall p,
         (forall r, p <> "proto_" ++ r) ->
         (forall r, p <> "proto." ++ r) ->
         MainGo.protoPackageName p = p
         /\ MainGo.protoPackageName (MainGo.protoPackageName p) = p)
  /\ (forall p,
         MainGo.protoPackageName p = p
         \/ p = "proto_" ++ MainGo.protoPackageName p
         \/ p = "proto." ++ MainGo.protoPackageName p).
Proof.
  split; [|split; [|split; [|split]]].
  - intros r. rewrite protoPackageName_cases, HasPrefix_append.
    apply TrimPrefix_append.
  - intros p. rewrite protoPackageName_cases. split; intros H.
    + apply TrimPrefix_unchanged_iff in H; [|discriminate]. now rewrite H.
    + destruct (strings.HasPrefix p "proto_") eqn:E; [reflexivity|].
      elim H. apply TrimPrefix_unchanged_iff; [discriminate | exact E].
  - intros r. rewrite protoPackageName_cases, proto_dot_not_underscore.
    apply TrimPrefix_append.
  - intros p H1 H2.
    assert (H : MainGo.protoPackageName p = p).
    { rewrite protoPackageName_cases.
      destruct (strings.HasPrefix p "proto_") eqn:E.
      - destruct (HasPrefix_inv _ _ E) as [r Hr]. now elim (H1 r).
      - now apply TrimPrefix_absent. }
    now rewrite !H.
  - intros p. rewrite protoPackageName_cases.
    destruct (strings.HasPrefix p "proto_") eqn:E.
    + destruct (HasPrefix_inv _ _ E) as [r ->].
      rewrite TrimPrefix_append. right; left; reflexivity.
    + unfold strings.TrimPrefix at 1 2.
      destruct (strings.HasPrefix p "proto.") eqn:E'.
      * destruct (HasPrefix_inv _ _ E') as [r ->].
        right; right. f_equal.
        change (slice_from ("proto." ++ r) (len "proto."))
          with (if true then slice_from ("proto." ++ r) (len "proto.")
                else "proto." ++ r).
        rewrite <- (HasPrefix_append "proto." r).
        symmetry. apply TrimPrefix_append.
      * left; reflexivity.
Qed.

Lemma slice_from_tail (c : ascii) (s : string) : slice_from (String c s) 1 = s.
Proof.
  unfold slice_from, slice, len. simpl.
  rewrite Nat.sub_0_r. apply substring_whole.
Qed.

Lemma toCamelCase_upper (c : ascii) (s : string) :
  byte_in 65 90 c = true ->
  Part000.toCamelCase (String c s) = String (ascii_of_N (N_of_ascii c + 32)) s.
Proof.
  unfold byte_in. intros H. apply andb_true_iff in H. destruct H as [Hlo Hhi].
  unfold Part000.toCamelCase.
  change (len (String c s) =? 0)%nat with false. cbv iota.
  change (at_ (String c s) 0) with (N_of_ascii c).
  rewrite Hlo, Hhi. cbv iota. simpl andb. cbv iota.
  apply N.leb_le in Hlo, Hhi.
  rewrite N.mod_small by lia.
  unfold Part000.string_of_byte.
  replace (N_of_ascii c + 32 <? 128)%N with true
    by (symmetry; apply N.ltb_lt; lia).
  rewrite slice_from_tail. reflexivity.
Qed.

Lemma toCamelCase_other (c : ascii) (s : string) :
  byte_in 65 90 c = false ->
  Part000.toCamelCase (String c s) = String c s.
Proof.
  unfold byte_in. intros H.
  unfold Part000.toCamelCase.
  change (len (String c s) =? 0)%nat with false. cbv iota.
  change (at_ (String c s) 0) with (N_of_ascii c).
  now rewrite H.
Qed.

Lemma lowered_not_upper (c : ascii) :
  byte_in 65 90 c = true ->
  byte_in 65 90 (ascii_of_N (N_of_ascii c + 32)) = false.
Proof.
  unfold byte_in. intros H. apply andb_true_iff in H. destruct H as [Hlo Hhi].
  apply N.leb_le in Hlo, Hhi.
  rewrite N_ascii_embedding by lia.
  apply andb_false_iff. right. apply N.leb_gt. lia.
Qed.

(** C10: [toCamelCase] changes its argument only when the first byte is
    one of ['A'..'Z'], and then replaces that byte alone by its lower
    case; the empty string is kept; the function is idempotent; a first
    byte that is not ASCII (the start of an upper-case letter outside
    ASCII, for one) is kept. *)
Theorem toCamelCase_first_byte_only :
  Part000.toCamelCase "" = ""
  /\ (forall c s,
         byte_in 65 90 c = true ->
         Part000.toCamelCase (String c s)
         = String (ascii_of_N (N_of_ascii c + 32)) s)
  /\ (forall c s,
         byte_in 65 90 c = false ->
         Part000.toCamelCase (String c s) = String c s)
  /\ (forall s,
         Part000.toCamelCase (Part000.toCamelCase s) = Part000.toCamelCase s)
  /\ (forall c s,
         (128 <= N_of_ascii c)%N ->
         Part000.toCamelCase (String c s) = String c s).
Proof.
  split; [reflexivity|].
  split; [exact toCamelCase_upper|].
  split; [exact toCamelCase_other|].
  split.
  - intros [|c s]; [reflexivity|].
    destruct (byte_in 65 90 c) eqn:E.
    + rewrite (toCamelCase_upper c s E).
      apply toCamelCase_other, lowered_not_upper, E.
    + now rewrite !(toCamelCase_other c s E).
  - intros c s H. apply toCamelCase_other.
    unfold byte_in. apply andb_false_iff. right. apply N.leb_gt. lia.
Qed.

(* ================================================================== *)
(** * The file name: lowering and joining *)
(* ================================================================== *)

Lemma scan_case_ascii (s : string) (h : bool) :
  all_ascii s = true ->
  exists u,
    strings.scan_case s h = (true, u)
    /\ (u = false -> h = false /\ strings.lower_ascii s = s).
Proof.
  revert h. induction s as [|c s IH]; intros h Ha; simpl in *.
  - exists h. now split.
  - apply andb_true_iff in Ha. destruct Ha as [Hc Hs].
    apply N.ltb_lt in Hc. unfold utf8.RuneSelf.
    replace (128 <=? N_of_ascii c)%N with false
      by (symmetry; apply N.leb_gt; exact Hc).
    destruct (IH (h || byte_in 65 90 c) Hs) as [u [Hu Hl]].
    exists u. split; [exact Hu|].
    intros ->. destruct (Hl eq_refl) as [Hh Hlow].
    apply orb_false_iff in Hh. destruct Hh as [-> Hup].
    split; [reflexivity|]. now rewrite Hup, Hlow.
Qed.

(** On a name without non-ASCII byte (every protobuf identifier is one)
    [strings.ToLower] is the byte-wise lowering, whatever the Unicode
    tables say. *)
Lemma ToLower_ascii (m : string -> string) (s : string) :
  all_ascii s = true -> strings.ToLower m s = strings.lower_ascii s.
Proof.
  intros Ha. unfold strings.ToLower.
  destruct (scan_case_ascii s false Ha) as [u [Hu Hl]].
  rewrite Hu. destruct u; [reflexivity|].
  symmetry. now apply Hl.
Qed.

Lemma Clean_loop_skip (rooted : bool) (a rest out : string) (dotdot : nat) :
  filepath.Clean_loop rooted (a ++ rest) (String.length a) out dotdot
  = filepath.Clean_loop rooted rest 0 out dotdot.
Proof.
  induction a as [|c a IH]; simpl; [|exact IH].
  destruct rest; reflexivity.
Qed.

Lemma element_append (e rest : string) :
  contains "/"%char e = false ->
  filepath.at_end_or_sep rest = true ->
  filepath.element (e ++ rest) = e.
Proof.
  induction e as [|c e IH]; simpl; intros He Hr.
  - destruct rest as [|c r]; [reflexivity|]. simpl in *. now rewrite Hr.
  - apply orb_false_iff in He. destruct He as [Hc He].
    unfold filepath.IsPathSeparator, filepath.Separator. rewrite Hc.
    now rewrite IH.
Qed.

Lemma at_end_or_sep_append (e rest : string) :
  contains "/"%char e = false ->
  filepath.at_end_or_sep rest = true ->
  filepath.at_end_or_sep (e ++ rest) = String.eqb e "".
Proof.
  intros He Hr. destruct e as [|c e]; simpl; [exact Hr|].
  simpl in He. apply orb_false_iff in He. exact (proj1 He).
Qed.

(** A plain element at the start of what is left of a relative path is
    copied, after a slash when something was written before. *)
Lemma Clean_loop_plain (e rest out : string) (dotdot : nat) :
  plain e = true ->
  filepath.at_end_or_sep rest = true ->
  filepath.Clean_loop false (e ++ rest) 0 out dotdot
  = filepath.Clean_loop false rest 0
      ((if (len out =? 0)%nat then out else out ++ "/") ++ e) dotdot.
Proof.
  unfold plain. intros Hp Hr.
  repeat (apply andb_true_iff in Hp; destruct Hp as [Hp ?]).
  destruct e as [|c e]; [discriminate|].
  rewrite negb_true_iff in *.
  assert (Hel : filepath.element (String c e ++ rest) = String c e)
    by (now apply element_append).
  simpl in H1. apply orb_false_iff in H1. destruct H1 as [Hc He].
  change (String c e ++ rest) with (String c (e ++ rest)) in *.
  cbn [filepath.Clean_loop].
  unfold filepath.IsPathSeparator at 1, filepath.Separator. rewrite Hc.
  rewrite Hel.
  assert (Hdot : Ascii.eqb c "."%char && filepath.at_end_or_sep (e ++ rest) = false).
  { rewrite at_end_or_sep_append by assumption.
    destruct (Ascii.eqb_spec c "."%char) as [->|]; [|reflexivity].
    destruct e; [discriminate | reflexivity]. }
  rewrite Hdot.
  assert (Hdd : Ascii.eqb c "."%char
                && match e ++ rest with
                   | String c1 rest'' =>
                       Ascii.eqb c1 "."%char && filepath.at_end_or_sep rest''
                   | EmptyString => false
                   end = false).
  { destruct (Ascii.eqb_spec c "."%char) as [->|]; [|reflexivity].
    destruct e as [|c1 e]; simpl.
    - destruct rest as [|c1 r]; [reflexivity|].
      simpl in Hr. unfold filepath.IsPathSeparator, filepath.Separator in Hr.
      apply Ascii.eqb_eq in Hr. subst c1. reflexivity.
    - simpl in He. apply orb_false_iff in He. destruct He as [Hc1 He].
      rewrite at_end_or_sep_append by assumption.
      destruct (Ascii.eqb_spec c1 "."%char) as [->|]; [|reflexivity].
      destruct e; [discriminate | reflexivity]. }
  rewrite Hdd.
  cbn [andb negb orb].
  replace (len (String c e) - 1) with (String.length e)
    by (unfold len; simpl; lia).
  rewrite Clean_loop_skip.
  destruct (len out =? 0)%nat; reflexivity.
Qed.

Lemma Clean_relative (c : ascii) (p : string) :
  filepath.IsPathSeparator c = false ->
  filepath.Clean (String c p) =
  if (len (filepath.Clean_loop false (String c p) 0 "" 0) =? 0)%nat then "."
  else filepath.Clean_loop false (String c p) 0 "" 0.
Proof. intros H. unfold filepath.Clean. now rewrite H. Qed.

Lemma plain_inv (e : string) :
  plain e = true ->
  String.eqb e "" = false /\ contains "/"%char e = false.
Proof.
  unfold plain. intros H.
  apply andb_true_iff in H. destruct H as [H _].
  apply andb_true_iff in H. destruct H as [H _].
  apply andb_true_iff in H. destruct H as [H1 H2].
  rewrite negb_true_iff in H1, H2. now split.
Qed.

(** For a plain directory and a plain file name, [filepath.Join] is the
    directory, a slash, and the name. *)
Lemma Join_plain (dir name : string) :
  plain dir = true -> plain name = true ->
  filepath.Join [dir; name] = dir ++ "/" ++ name.
Proof.
  intros Hd Hn.
  destruct (plain_inv dir Hd) as [Hne Hfree].
  unfold filepath.Join. rewrite Hne.
  change (strings.Join [dir; name] "/") with (dir ++ "/" ++ name).
  destruct dir as [|c dir]; [discriminate|].
  assert (Hc : filepath.IsPathSeparator c = false).
  { simpl in Hfree. apply orb_false_iff in Hfree. exact (proj1 Hfree). }
  assert (Hloop : filepath.Clean_loop false (String c dir ++ "/" ++ name) 0 "" 0
                  = String c dir ++ "/" ++ name).
  { rewrite Clean_loop_plain by (exact Hd || reflexivity).
    change ("/" ++ name) with (String "/"%char name).
    cbn [filepath.Clean_loop].
    change (filepath.IsPathSeparator "/"%char) with true. cbv iota.
    rewrite <- (append_empty_r name) at 1.
    rewrite Clean_loop_plain by (exact Hn || reflexivity).
    simpl. now rewrite append_assoc. }
  change (String c dir ++ "/" ++ name) with (String c (dir ++ "/" ++ name)) in *.
  rewrite Clean_relative by exact Hc.
  rewrite Hloop. reflexivity.
Qed.

(** In [main.go], for a plain output directory and a service name
    without non-ASCII byte, the output path is the directory, a slash,
    the name with every byte lowered, and [.go]. *)
Lemma MainGo_outputPath_plain (E : Env) (config : PluginConfig)
      (serviceName : string) :
  plain (OutputDir config) = true ->
  all_ascii serviceName = true ->
  plain (strings.lower_ascii serviceName ++ ".go") = true ->
  MainGo.outputPath E config serviceName
  = OutputDir config ++ "/" ++ strings.lower_ascii serviceName ++ ".go".
Proof.
  intros Hd Ha Hn. unfold MainGo.outputPath, MainGo.fileName.
  rewrite ToLower_ascii by exact Ha.
  now apply Join_plain.
Qed.

(* ================================================================== *)
(** * The option parser *)
(* ================================================================== *)

(** ** Splitting *)

Lemma Split_free (s : string) (c : ascii) :
  contains c s = false -> strings.Split s c = [s].
Proof.
  induction s as [|a s IH]; simpl; intros H; [reflexivity|].
  apply orb_false_iff in H. destruct H as [Ha Hs].
  rewrite Ha, (IH Hs). reflexivity.
Qed.

Lemma Split_append (e t : string) (c : ascii) :
  contains c e = false ->
  strings.Split (e ++ String c t) c = e :: strings.Split t c.
Proof.
  induction e as [|a e IH]; simpl; intros H.
  - now rewrite Ascii.eqb_refl.
  - apply orb_false_iff in H. destruct H as [Ha He].
    rewrite Ha, (IH He). reflexivity.
Qed.

(** The pieces [Split] returns hold no separator. *)
Lemma Split_pieces_free (s : string) (c : ascii) :
  Forall (fun e => contains c e = false) (strings.Split s c).
Proof.
  induction s as [|a s IH]; simpl.
  - constructor; [reflexivity | constructor].
  - destruct (Ascii.eqb a c) eqn:Ha.
    + constructor; [reflexivity | exact IH].
    + destruct (strings.Split s c) as [|h t]; inversion IH; subst.
      * constructor; [simpl; now rewrite Ha | constructor].
      * constructor; [simpl; now rewrite Ha | assumption].
Qed.

(** Splitting what [Join] built from separator-free entries gives the
    entries back. *)
Lemma Split_Join (entries : list string) (c : ascii) :
  entries <> [] ->
  Forall (fun e => contains c e = false) entries ->
  strings.Split (strings.Join entries (String c "")) c = entries.
Proof.
  induction entries as [|e rest IH]; intros Hne Hall; [now elim Hne|].
  inversion Hall as [|? ? He Hrest]; subst.
  destruct rest as [|e' rest'].
  - simpl. now apply Split_free.
  - change (strings.Join (e :: e' :: rest') (String c ""))
      with (e ++ String c "" ++ strings.Join (e' :: rest') (String c "")).
    change (String c "" ++ strings.Join (e' :: rest') (String c ""))
      with (String c (strings.Join (e' :: rest') (String c ""))).
    rewrite Split_append by exact He.
    f_equal. apply IH; [discriminate | exact Hrest].
Qed.

Lemma Cut_append (k v : string) (c : ascii) :
  contains c k = false -> strings.Cut (k ++ String c v) c = Some (k, v).
Proof.
  induction k as [|a k IH]; simpl; intros H.
  - now rewrite Ascii.eqb_refl.
  - apply orb_false_iff in H. destruct H as [Ha Hk].
    rewrite Ha, (IH Hk). reflexivity.
Qed.

Lemma Cut_Some (s h t : string) (c : ascii) :
  strings.Cut s c = Some (h, t) ->
  s = h ++ String c t /\ contains c h = false.
Proof.
  revert h; induction s as [|a s IH]; simpl; intros h H; [discriminate|].
  destruct (Ascii.eqb a c) eqn:Ha.
  - injection H as <- <-. apply Ascii.eqb_eq in Ha. subst a. now split.
  - destruct (strings.Cut s c) as [[h' t']|] eqn:E; [|discriminate].
    injection H as <- <-. destruct (IH h' eq_refl) as [-> Hh].
    split; [reflexivity | simpl; now rewrite Ha].
Qed.

Lemma Cut_sub (s h t : string) (c : ascii) :
  strings.Cut s c = Some (h, t) -> sub h s /\ sub t s.
Proof.
  intros H. destruct (Cut_Some _ _ _ _ H) as [-> _].
  split; intros x Hx; rewrite contains_append; simpl.
  - now rewrite Hx.
  - rewrite Hx. now rewrite !orb_true_r.
Qed.

(** ** Trimming returns a slice *)

Lemma TrimLeftFunc_sub (s : string) (f : N -> bool) :
  sub (strings.TrimLeftFunc s f) s.
Proof.
  unfold strings.TrimLeftFunc, slice_from.
  destruct (strings.indexFunc_false f s 0 0); auto with substr.
Qed.

Lemma TrimRightFunc_sub (s : string) (f : N -> bool) :
  sub (strings.TrimRightFunc s f) s.
Proof.
  unfold strings.TrimRightFunc.
  destruct (strings.lastIndexFunc_false f s (len s) 0) as [i|];
    auto with substr.
  destruct (utf8.RuneSelf <=? at_ s i)%N; auto with substr.
  destruct (utf8.DecodeRuneInString (slice_from s i)); auto with substr.
Qed.

Lemma TrimSpace_sub (s : string) : sub (strings.TrimSpace s) s.
Proof.
  unfold strings.TrimSpace, strings.TrimFunc, slice_from.
  destruct (strings.scan_start s 0) as [start [|]].
  - eapply sub_trans; [apply TrimRightFunc_sub|].
    eapply sub_trans; [apply TrimLeftFunc_sub | apply sub_slice].
  - destruct (strings.scan_stop s start (len s)) as [stop [|]].
    + eapply sub_trans; [apply TrimRightFunc_sub | apply sub_slice].
    + apply sub_slice.
Qed.

(** ** One entry *)

Lemma entry_append (k v : string) :
  contains "="%char k = false ->
  entry (k ++ "=" ++ v) = Some (strings.TrimSpace k, strings.TrimSpace v).
Proof.
  intros H. unfold entry, strings.SplitN2.
  change (k ++ "=" ++ v) with (k ++ String "="%char v).
  now rewrite Cut_append.
Qed.

(** The effect of one entry on the field a recognised key names. *)
Lemma field_parsePair (config : PluginConfig) (pair key : string) :
  recognized key = true ->
  field key (parsePair config pair) =
  match entry pair with
  | Some (k, v) => if String.eqb k key then Some v else field key config
  | None => field key config
  end.
Proof.
  intros Hk. unfold entry, parsePair.
  destruct (strings.SplitN2 pair "="%char) as [|k [|v [|? ?]]];
    try reflexivity.
  generalize (strings.TrimSpace k) (strings.TrimSpace v). intros k' v'.
  unfold recognized in Hk. unfold field.
  destruct (String.eqb_spec key "template_file") as [E1|H1].
  - rewrite E1.
    destruct (String.eqb_spec k' "template_file") as [N1|N1]; [reflexivity|].
    destruct (String.eqb k' "output_dir");
      [|destruct (String.eqb k' "package_name")]; reflexivity.
  - destruct (String.eqb_spec key "output_dir") as [E2|H2].
    + rewrite E2.
      destruct (String.eqb_spec k' "template_file") as [N1|N1];
        [rewrite N1; reflexivity|].
      destruct (String.eqb_spec k' "output_dir") as [N2|N2]; [reflexivity|].
      destruct (String.eqb k' "package_name"); reflexivity.
    + destruct (String.eqb_spec key "package_name") as [E3|H3];
        [|discriminate].
      rewrite E3.
      destruct (String.eqb_spec k' "template_file") as [N1|N1];
        [rewrite N1; reflexivity|].
      destruct (String.eqb_spec k' "output_dir") as [N2|N2];
        [rewrite N2; reflexivity|].
      destruct (String.eqb_spec k' "package_name") as [N3|N3]; reflexivity.
Qed.

(** ** The loop over the entries *)

Lemma fold_silent (key : string) (l : list string) (config : PluginConfig) :
  recognized key = true ->
  Forall (silent key) l ->
  field key (fold_left parsePair l config) = field key config.
Proof.
  intros Hk. revert config.
  induction l as [|e l IH]; intros config Hall; [reflexivity|].
  inversion Hall as [|? ? He Hl]; subst. simpl.
  rewrite (IH _ Hl), field_parsePair by exact Hk.
  destruct (entry e) as [[k v]|] eqn:E; [|reflexivity].
  destruct (String.eqb_spec k key) as [->|N]; [|reflexivity].
  now elim (He v).
Qed.

(** The last entry that sets a key decides the field. *)
Lemma fold_last (key value e : string) (before after : list string)
      (config : PluginConfig) :
  recognized key = true ->
  entry e = Some (key, value) ->
  Forall (silent key) after ->
  field key (fold_left parsePair (before ++ e :: after) config) = Some value.
Proof.
  intros Hk He Hafter.
  rewrite fold_left_app. simpl.
  rewrite (fold_silent _ _ _ Hk Hafter), field_parsePair by exact Hk.
  now rewrite He, String.eqb_refl.
Qed.

Lemma Join_not_empty (entries : list string) (e : string) :
  In e entries -> e <> "" ->
  Forall comma_free entries ->
  strings.Join entries "," <> "".
Proof.
  intros Hin He Hall Hj.
  assert (Hne : entries <> []) by (intros ->; inversion Hin).
  pose proof (Split_Join entries ","%char Hne Hall) as Hs.
  change (String ","%char "") with "," in Hs.
  rewrite Hj in Hs. simpl in Hs. subst entries.
  destruct Hin as [<-|[]]. now elim He.
Qed.

Lemma entry_not_empty (k v : string) : k ++ "=" ++ v <> "".
Proof. destruct k; discriminate. Qed.

Lemma parse_entries (entries : list string) (e : string) :
  In e entries -> e <> "" ->
  Forall comma_free entries ->
  parsePluginOptions (strings.Join entries ",") =
  let config := fold_left parsePair entries defaultConfig in
  if String.eqb (TemplateFile config) "" then Err ErrTemplateFileMissing
  else Ok config.
Proof.
  intros Hin He Hall. unfold parsePluginOptions.
  destruct (String.eqb_spec (strings.Join entries ",") "") as [H|_].
  - now elim (Join_not_empty entries e Hin He Hall).
  - assert (Hne : entries <> []) by (intros ->; inversion Hin).
    pose proof (Split_Join entries ","%char Hne Hall) as Hs.
    change (String ","%char "") with "," in Hs.
    now rewrite Hs.
Qed.

(** C1: the empty parameter string is refused; a parameter string with
    an entry [k=v], where [k] trims to [template_file], [v] trims to a
    non-empty text and no later entry sets the key, is accepted, with
    [TemplateFile] the trimmed [v], and with the default output
    directory and package name when no entry sets them; a parameter
    string none of whose entries gives a non-empty [template_file] is
    refused. *)
Theorem parsePluginOptions_template_file :
  parsePluginOptions "" = Err ErrParamMissing
  /\ (forall before after k v,
         let entries := (before ++ (k ++ "=" ++ v)%string :: after)%list in
         Forall comma_free entries ->
         contains "="%char k = false ->
         strings.TrimSpace k = "template_file" ->
         strings.TrimSpace v <> "" ->
         Forall (silent "template_file") after ->
         exists config,
           parsePluginOptions (strings.Join entries ",") = Ok config
           /\ TemplateFile config = strings.TrimSpace v
           /\ (Forall (silent "output_dir") entries ->
               OutputDir config = "local_service_center")
           /\ (Forall (silent "package_name") entries ->
               PackageName config = "local_service_center"))
  /\ (forall param,
         (forall e value,
             In e (strings.Split param ","%char) ->
             entry e = Some ("template_file", value) -> value = "") ->
         exists err, parsePluginOptions param = Err err).
Proof.
  split; [reflexivity|]. split.
  - intros before after k v entries Hall Hk Hkey Hv Hafter.
    assert (Hin : In (k ++ "=" ++ v) entries)
      by (apply in_or_app; right; left; reflexivity).
    rewrite (parse_entries entries _ Hin (entry_not_empty k v) Hall).
    cbv zeta.
    assert (He : entry (k ++ "=" ++ v) = Some ("template_file", strings.TrimSpace v))
      by (rewrite entry_append, Hkey by exact Hk; reflexivity).
    pose proof (fold_last "template_file" _ _ before after defaultConfig
                  eq_refl He Hafter) as Hf.
    fold entries in Hf.
    set (config := fold_left parsePair entries defaultConfig) in *.
    simpl in Hf. injection Hf as Hf.
    destruct (String.eqb_spec (TemplateFile config) "") as [H0|_];
      [congruence|].
    exists config. split; [reflexivity|]. split; [exact Hf|]. split.
    + intros Hs.
      pose proof (fold_silent "output_dir" entries defaultConfig eq_refl Hs) as H.
      simpl in H. now injection H.
    + intros Hs.
      pose proof (fold_silent "package_name" entries defaultConfig eq_refl Hs) as H.
      simpl in H. now injection H.
  - intros param Hnone. unfold parsePluginOptions.
    destruct (String.eqb param ""); [now eexists|].
    assert (H : TemplateFile
                  (fold_left parsePair (strings.Split param ","%char)
                             defaultConfig) = "").
    { assert (G : forall l config,
                 (forall e value, In e l ->
                                  entry e = Some ("template_file", value) ->
                                  value = "") ->
                 TemplateFile config = "" ->
                 TemplateFile (fold_left parsePair l config) = "").
      { induction l as [|e l IH]; intros config Hl Hc; [exact Hc|].
        simpl. apply IH.
        - intros e' value Hin. apply Hl. now right.
        - pose proof (field_parsePair config e "template_file" eq_refl) as Hf.
          simpl in Hf.
          destruct (entry e) as [[k' v']|] eqn:Ee.
          + destruct (String.eqb_spec k' "template_file") as [->|N].
            * injection Hf as ->. apply (Hl e); [now left | exact Ee].
            * injection Hf as ->. exact Hc.
          + injection Hf as ->. exact Hc. }
      apply G; [exact Hnone | reflexivity]. }
    rewrite H. simpl. now eexists.
Qed.

(** [template_file= t.tmpl ] between two other entries. *)
Lemma parsePluginOptions_template_file_witness :
  exists config,
    parsePluginOptions "x=1, template_file = t.tmpl ,verbose" = Ok config
    /\ TemplateFile config = "t.tmpl".
Proof.
  destruct (proj1 (proj2 parsePluginOptions_template_file)
              ["x=1"] ["verbose"] " template_file " " t.tmpl ")
    as [config [H1 [H2 _]]].
  - repeat constructor.
  - reflexivity.
  - reflexivity.
  - discriminate.
  - repeat constructor. intros value. discriminate.
  - exists config. split; [exact H1 | exact H2].
Defined.

(** C9: when a recognised key is set by several entries, the field has
    the value of the last of them: for an entry [k=v] whose key trims
    to a recognised key that no later entry sets, an accepted parameter
    string gives the field the trimmed [v], whatever the entries before
    it; an empty value replaces the default, as [output_dir=] does. *)
Theorem last_entry_wins :
  (forall before after k v key config,
      let entries := (before ++ (k ++ "=" ++ v)%string :: after)%list in
      Forall comma_free entries ->
      contains "="%char k = false ->
      strings.TrimSpace k = key ->
      recognized key = true ->
      Forall (silent key) after ->
      parsePluginOptions (strings.Join entries ",") = Ok config ->
      field key config = Some (strings.TrimSpace v))
  /\ parsePluginOptions "template_file=t.tmpl,output_dir="
     = Ok {| TemplateFile := "t.tmpl"; OutputDir := "";
             PackageName := "local_service_center" |}.
Proof.
  split; [|reflexivity].
  intros before after k v key config entries Hall Hk Hkey Hrec Hafter Hparse.
  assert (Hin : In (k ++ "=" ++ v) entries)
    by (apply in_or_app; right; left; reflexivity).
  rewrite (parse_entries entries _ Hin (entry_not_empty k v) Hall) in Hparse.
  cbv zeta in Hparse.
  destruct (String.eqb (TemplateFile (fold_left parsePair entries defaultConfig)) "");
    [discriminate|].
  injection Hparse as <-.
  apply fold_last; [exact Hrec | | exact Hafter].
  rewrite entry_append by exact Hk. now rewrite Hkey.
Qed.

(** [output_dir] set three times, the last time to the empty text. *)
Lemma last_entry_wins_witness :
  parsePluginOptions
    "output_dir=a,template_file=t,output_dir=b, output_dir =,x=y"
  = Ok {| TemplateFile := "t"; OutputDir := "";
          PackageName := "local_service_center" |}
  /\ field "output_dir"
           {| TemplateFile := "t"; OutputDir := "";
              PackageName := "local_service_center" |}
     = Some "".
Proof.
  split; [vm_compute; reflexivity|].
  apply (proj1 last_entry_wins
           ["output_dir=a"; "template_file=t"; "output_dir=b"] ["x=y"]
           " output_dir " "" "output_dir").
  - repeat constructor.
  - reflexivity.
  - reflexivity.
  - reflexivity.
  - repeat constructor. intros value. discriminate.
  - vm_compute; reflexivity.
Defined.

(** ** No comma in a field *)

Lemma parsePair_comma_free (config : PluginConfig) (pair : string) :
  comma_free pair ->
  fields_comma_free config -> fields_comma_free (parsePair config pair).
Proof.
  intros Hp (H1 & H2 & H3). unfold parsePair, strings.SplitN2.
  destruct (strings.Cut pair "="%char) as [[h t]|] eqn:E;
    [|repeat split; assumption].
  destruct (Cut_sub _ _ _ _ E) as [_ Ht].
  assert (Hv : comma_free (strings.TrimSpace t)).
  { eapply sub_free; [|exact Hp].
    eapply sub_trans; [apply TrimSpace_sub | exact Ht]. }
  destruct (String.eqb (strings.TrimSpace h) "template_file");
    [repeat split; assumption|].
  destruct (String.eqb (strings.TrimSpace h) "output_dir");
    [repeat split; assumption|].
  destruct (String.eqb (strings.TrimSpace h) "package_name");
    repeat split; assumption.
Qed.

Lemma fold_comma_free (l : list string) (config : PluginConfig) :
  Forall comma_free l ->
  fields_comma_free config ->
  fields_comma_free (fold_left parsePair l config).
Proof.
  revert config. induction l as [|e l IH]; intros config Hl Hc; [exact Hc|].
  inversion Hl; subst. simpl. apply IH; [assumption|].
  now apply parsePair_comma_free.
Qed.

(** C8, as the code has it: no field of an accepted configuration holds
    a comma, so a value with a comma cannot be passed; a value can hold
    [=], since an entry is split at its first [=] only: for every
    comma-free [v] that does not trim to the empty text,
    [template_file=v] gives [TemplateFile] the trimmed [v]. *)
Theorem fields_hold_no_comma :
  (forall param config,
      parsePluginOptions param = Ok config ->
      contains ","%char (TemplateFile config) = false
      /\ contains ","%char (OutputDir config) = false
      /\ contains ","%char (PackageName config) = false)
  /\ (forall v,
         comma_free v ->
         strings.TrimSpace v <> "" ->
         parsePluginOptions ("template_file=" ++ v)
         = Ok {| TemplateFile := strings.TrimSpace v;
                 OutputDir := "local_service_center";
                 PackageName := "local_service_center" |}).
Proof.
  split.
  - intros param config H. unfold parsePluginOptions in H.
    destruct (String.eqb param ""); [discriminate|].
    destruct (String.eqb
                (TemplateFile
                   (fold_left parsePair (strings.Split param ","%char)
                              defaultConfig)) ""); [discriminate|].
    injection H as <-.
    apply fold_comma_free.
    + apply Split_pieces_free.
    + repeat split; reflexivity.
  - intros v Hv Hne. unfold parsePluginOptions.
    change (String.eqb ("template_file=" ++ v) "") with false. cbv iota.
    replace (strings.Split ("template_file=" ++ v) ","%char)
      with ["template_file=" ++ v]
      by (symmetry; apply Split_free; exact Hv).
    simpl fold_left. unfold parsePair, strings.SplitN2.
    match goal with
    | |- context [strings.Cut ?s ?c] =>
        replace (strings.Cut s c) with (Some ("template_file", v))
          by (symmetry; apply (Cut_append "template_file" v "="%char);
              reflexivity)
    end.
    change (String.eqb (strings.TrimSpace "template_file") "template_file")
      with true. cbv iota. simpl.
    destruct (String.eqb_spec (strings.TrimSpace v) "") as [H|_];
      [now elim Hne | reflexivity].
Qed.

(** The value [a=b] arrives whole. *)
Lemma fields_hold_no_comma_witness :
  contains ","%char "t.tmpl" = false
  /\ parsePluginOptions "template_file= a=b "
     = Ok {| TemplateFile := "a=b";
             OutputDir := "local_service_center";
             PackageName := "local_service_center" |}.
Proof.
  split.
  - exact (proj1 (proj1 fields_hold_no_comma
                    "template_file=t.tmpl"
                    {| TemplateFile := "t.tmpl";
                       OutputDir := "local_service_center";
                       PackageName := "local_service_center" |} eq_refl)).
  - apply (proj2 fields_hold_no_comma " a=b "); [reflexivity | discriminate].
Defined.

(** C8, as the claim has it, fails: the accepted parameter string
    [template_file=a=b] gives a field that holds [=]. *)
Lemma value_may_hold_equals_sign :
  ~ (forall param config,
        parsePluginOptions param = Ok config ->
        (contains ","%char (TemplateFile config) = false
         /\ contains "="%char (TemplateFile config) = false)
        /\ (contains ","%char (OutputDir config) = false
            /\ contains "="%char (OutputDir config) = false)
        /\ (contains ","%char (PackageName config) = false
            /\ contains "="%char (PackageName config) = false)).
Proof.
  intros H.
  destruct (H "template_file=a=b" _ eq_refl) as [[_ E] _].
  discriminate E.
Qed.

(* ================================================================== *)
(** * Loading the template *)
(* ================================================================== *)

(** C7: [loadTemplate] fails with the not-found error exactly when
    nothing exists at the configured path; when the path exists and
    cannot be read (a permission error, say) it fails with the read
    error, which is another error; when the file can be read it returns
    the content.  The filesystem is the same for [os.Stat] and
    [os.ReadFile]. *)
Theorem loadTemplate_not_found_or_read_error :
  forall (E : Env) (config : PluginConfig) (st : Plugin),
    let path := TemplateFile config in
    let r := fst (loadTemplate E config st) in
    (fs E path = Absent <-> r = Err (ErrTemplateNotExist path))
    /\ (fs E path = Absent <-> exists p, r = Err (ErrTemplateNotExist p))
    /\ (forall s text,
           fs E path = Present s (inl text) ->
           r = Err (ErrReadTemplate (EOther text)))
    /\ (forall s content,
           fs E path = Present s (inr content) -> r = Ok content).
Proof.
  intros E config st path r. subst r.
  unfold loadTemplate, os_Stat, os_ReadFile, bind, log, ret, fail.
  fold path. simpl.
  destruct (fs E path) as [|[t|] [e|c]]; simpl.
  - repeat split; try reflexivity; try discriminate.
    intros _. now exists path.
  - repeat split; try discriminate.
    + intros [p H]. discriminate H.
    + intros s x H. now injection H as _ <-.
  - repeat split; try discriminate.
    + intros [p H]. discriminate H.
    + intros s x H. now injection H as _ <-.
  - repeat split; try discriminate.
    + intros [p H]. discriminate H.
    + intros s x H. now injection H as _ <-.
  - repeat split; try discriminate.
    + intros [p H]. discriminate H.
    + intros s x H. now injection H as _ <-.
Qed.

(* ================================================================== *)
(** * One service: what [generateServiceRegistry] registers *)
(* ================================================================== *)

Lemma update_last {A} (l : list A) (x : A) (f : A -> A) :
  update (l ++ [x]) (List.length l) f = (l ++ [f x])%list.
Proof. induction l as [|y l IH]; simpl; [reflexivity | now rewrite IH]. Qed.

(** The steps of [generateServiceRegistry] after the naming, which are
    the same text in both programs, looked at from the outside: a
    successful call registers one file at [path]; a failed call
    registers nothing, or, when the write is what fails, the file at
    [path] with an empty buffer. *)
Ltac run_steps E config :=
  unfold wrapErr, orFail, loadTemplate, os_Stat, os_ReadFile, Parse, Execute,
    Source, NewGeneratedFile, Write, bind, log, ret, fail; simpl;
  destruct (fs E (TemplateFile config)) as [|[?|] [?|tmplContent]]; simpl;
  try (intros H; injection H as <- <-; split; [discriminate | now left]);
  destruct (template_Parse E tmplContent) as [tmpl|?]; simpl;
  try (intros H; injection H as <- <-; split; [discriminate | now left]);
  (destruct (template_Execute E tmpl _) as [buf|?]; simpl;
   try (intros H; injection H as <- <-; split; [discriminate | now left]));
  (destruct (format_Source E buf) as [formatted|?]; simpl;
   try (intros H; injection H as <- <-; split; [discriminate | now left]));
  (destruct (buffer_Write E formatted) as [?|]; simpl;
   intros H; injection H as <- <-; simpl;
   [split; [discriminate | right; now eexists]
   | rewrite update_last; simpl;
     split; [intros _; now eexists | right; now eexists]]).

Lemma MainGo_generate_registers E file service config st r st' :
  MainGo.generateServiceRegistry E file service config st = (r, st') ->
  let path :=
    MainGo.outputPath E config (MainGo.serviceName (Desc_Name service)) in
  (r = Ok tt ->
   exists content, genFiles st' = (genFiles st ++ [(path, content)])%list)
  /\ (genFiles st' = genFiles st
      \/ exists content, genFiles st' = (genFiles st ++ [(path, content)])%list).
Proof.
  unfold MainGo.generateServiceRegistry. cbv zeta.
  run_steps E config.
Qed.

Lemma Part000_generate_registers E file service config st r st' :
  Part000.generateServiceRegistry E file service config st = (r, st') ->
  let path :=
    Part000.outputPath config (Part000.serviceName (Desc_Name service)) in
  (r = Ok tt ->
   exists content, genFiles st' = (genFiles st ++ [(path, content)])%list)
  /\ (genFiles st' = genFiles st
      \/ exists content, genFiles st' = (genFiles st ++ [(path, content)])%list).
Proof.
  unfold Part000.generateServiceRegistry. cbv zeta.
  run_steps E config.
Qed.

(** C4: the file a successful [generateServiceRegistry] registers is at
    [filepath.Join] of the output directory with the converted service
    name followed by [.go]; the conversion is [strings.ToLower] (the
    whole name) in [main.go] and [toCamelCase] (the first byte) in the
    second program. *)
Theorem outputPath_joins_dir_and_name :
  forall (E : Env) (file : File) (service : Service) (config : PluginConfig)
         (st st' : Plugin),
    (MainGo.generateServiceRegistry E file service config st = (Ok tt, st') ->
     exists content,
       genFiles st' =
       (genFiles st ++
        [(filepath.Join
            [OutputDir config;
             (strings.ToLower (map_lower E)
                (strings.TrimSuffix (Desc_Name service) "Service")
              ++ ".go")%string],
          content)])%list)
    /\ (Part000.generateServiceRegistry E file service config st = (Ok tt, st') ->
        exists content,
          genFiles st' =
          (genFiles st ++
           [(filepath.Join
               [OutputDir config;
                (Part000.toCamelCase
                   (strings.TrimSuffix (Desc_Name service) "Service")
                 ++ ".go")%string],
             content)])%list).
Proof.
  intros E file service config st st'. split; intros H.
  - exact (proj1 (MainGo_generate_registers E file service config st _ _ H) eq_refl).
  - exact (proj1 (Part000_generate_registers E file service config st _ _ H) eq_refl).
Qed.

(** [PrepareOrderService] under [out]: [out/prepareorder.go] in
    [main.go], [out/prepareOrder.go] in the second program. *)
Lemma outputPath_joins_dir_and_name_witness :
  (exists content,
      [("out/prepareorder.go", "package x // PrepareOrder")]
      = ([] ++ [("out/prepareorder.go", content)])%list)
  /\ (exists content,
         [("out/prepareOrder.go", "package x // PrepareOrder")]
         = ([] ++ [("out/prepareOrder.go", content)])%list).
Proof.
  pose proof (outputPath_joins_dir_and_name demoEnv orderFile
                {| Desc_Name := "PrepareOrderService" |} demoConfig
                emptyPlugin) as W.
  split.
  - exact (proj1 (W _) eq_refl).
  - exact (proj2 (W _) eq_refl).
Defined.

(* ================================================================== *)
(** * The run *)
(* ================================================================== *)

Section RunFacts.

Variable generate : File -> Service -> PluginConfig -> M unit.

Lemma forEach_app {A} (l1 l2 : list A) (body : A -> M unit) (st : Plugin) :
  forEach (l1 ++ l2) body st =
  match forEach l1 body st with
  | (Ok _, st1) => forEach l2 body st1
  | (Err e, st1) => (Err e, st1)
  end.
Proof.
  revert st. induction l1 as [|x l1 IH]; intros st; simpl; [reflexivity|].
  unfold bind. destruct (body x st) as [[[]|e] st1]; [apply IH | reflexivity].
Qed.

(** A loop that has gone through [l1] and fails on [x] returns that
    error in the state of the failure, whatever comes after [x]. *)
Lemma forEach_stops {A} (l1 l2 : list A) (x : A) (body : A -> M unit)
      (st st1 st2 : Plugin) (e : error) :
  forEach l1 body st = (Ok tt, st1) ->
  body x st1 = (Err e, st2) ->
  forEach (l1 ++ x :: l2) body st = (Err e, st2).
Proof.
  intros H1 H2. rewrite forEach_app, H1. simpl. unfold bind. now rewrite H2.
Qed.

(** A loop that fails has gone through a prefix and failed on the next
    element. *)
Lemma forEach_failed {A} (l : list A) (body : A -> M unit)
      (st st2 : Plugin) (e : error) :
  forEach l body st = (Err e, st2) ->
  exists l1 x l2 st1,
    l = (l1 ++ x :: l2)%list
    /\ forEach l1 body st = (Ok tt, st1)
    /\ body x st1 = (Err e, st2).
Proof.
  revert st. induction l as [|y l IH]; intros st H; [discriminate|].
  simpl in H. unfold bind in H.
  destruct (body y st) as [[[]|e'] st1] eqn:E.
  - destruct (IH _ H) as (l1 & x & l2 & st1' & -> & H1 & H2).
    exists (y :: l1), x, l2, st1'. repeat split; [|exact H2].
    simpl. unfold bind. now rewrite E.
  - injection H as -> ->. exists [], y, l, st. now repeat split.
Qed.

(** The two nested loops of [main] are one loop over the eligible
    services. *)
Lemma files_loop_eligible (config : PluginConfig) (files : list File)
      (st : Plugin) :
  forEach files (fun f =>
    if negb (Generate f) then ret tt
    else forEach (Services f) (fun service => generate f service config)) st
  = forEach (eligible files) (fun p => generate (fst p) (snd p) config) st.
Proof.
  revert st. induction files as [|f files IH]; intros st; [reflexivity|].
  simpl. rewrite forEach_app. unfold bind at 1.
  destruct (Generate f); simpl.
  - assert (G : forall l st0,
               forEach l (fun service => generate f service config) st0
               = forEach (map (pair f) l)
                         (fun p => generate (fst p) (snd p) config) st0).
    { induction l as [|s l IHl]; intros st0; [reflexivity|].
      simpl. unfold bind. destruct (generate f s config st0) as [[[]|e] st1];
        [apply IHl | reflexivity]. }
    rewrite <- G.
    destruct (forEach (Services f) _ st) as [[[]|e] st1];
      [apply IH | reflexivity].
  - apply IH.
Qed.

Lemma run_eligible (gen : Request) (config : PluginConfig) (st : Plugin) :
  parsePluginOptions (paramOf gen) = Ok config ->
  run generate gen st
  = forEach (eligible (Files gen))
            (fun p => generate (fst p) (snd p) config) st.
Proof.
  intros H. unfold run. fold (paramOf gen). rewrite H.
  apply files_loop_eligible.
Qed.

(** Every service processed without error has left its file: the paths
    registered are the paths of the services, in order. *)
Lemma processed_paths (path : PluginConfig -> Service -> string)
      (config : PluginConfig) :
  (forall f s st st',
      generate f s config st = (Ok tt, st') ->
      exists content,
        genFiles st' = (genFiles st ++ [(path config s, content)])%list) ->
  forall done st st',
    processed generate config done st st' ->
    map fst (genFiles st')
    = (map fst (genFiles st) ++ map (fun p => path config (snd p)) done)%list.
Proof.
  intros Hgen. unfold processed.
  induction done as [|[f s] done IH]; intros st st' H.
  - injection H as <-. now rewrite app_nil_r.
  - simpl in H. unfold bind in H.
    destruct (generate f s config st) as [[[]|e] st1] eqn:E; [|discriminate].
    destruct (Hgen _ _ _ _ E) as [content Hc].
    rewrite (IH _ _ H), Hc, map_app. simpl.
    now rewrite <- app_assoc.
Qed.

End RunFacts.

(** C5: once the parameter string is accepted, a run of [main.go] that
    has processed the eligible services [done] and fails on the next
    one returns that error in the state the failed call left: none of
    the services and files after it is touched; a failed run is of that
    form; and a run that succeeds has processed every eligible service
    of every file, each of which has registered its file. *)
Theorem run_fails_fast :
  forall (E : Env) (gen : Request) (config : PluginConfig) (st : Plugin),
    parsePluginOptions (paramOf gen) = Ok config ->
    (forall done f s todo st1 st2 e,
        eligible (Files gen) = (done ++ (f, s) :: todo)%list ->
        processed (MainGo.generateServiceRegistry E) config done st st1 ->
        MainGo.generateServiceRegistry E f s config st1 = (Err e, st2) ->
        MainGo.main E gen st = (Err e, st2))
    /\ (forall e st2,
           MainGo.main E gen st = (Err e, st2) ->
           exists done f s todo st1,
             eligible (Files gen) = (done ++ (f, s) :: todo)%list
             /\ processed (MainGo.generateServiceRegistry E) config done st st1
             /\ MainGo.generateServiceRegistry E f s config st1 = (Err e, st2))
    /\ (forall st',
           MainGo.main E gen st = (Ok tt, st') ->
           processed (MainGo.generateServiceRegistry E) config
                     (eligible (Files gen)) st st'
           /\ map fst (genFiles st')
              = (map fst (genFiles st)
                 ++ map (fun p => MainGo.outputPath E config
                                    (MainGo.serviceName (Desc_Name (snd p))))
                        (eligible (Files gen)))%list).
Proof.
  intros E gen config st Hparse.
  unfold MainGo.main.
  rewrite (run_eligible (MainGo.generateServiceRegistry E) gen config st Hparse).
  split; [|split].
  - intros done f s todo st1 st2 e Hel Hdone Hfail.
    rewrite Hel.
    apply (forEach_stops done todo (f, s) _ st st1 st2 e Hdone Hfail).
  - intros e st2 H.
    destruct (forEach_failed _ _ _ _ _ H) as (l1 & [f s] & l2 & st1 & Hl & H1 & H2).
    exists l1, f, s, l2, st1. repeat split; assumption.
  - intros st' H. split; [exact H|].
    apply (processed_paths (MainGo.generateServiceRegistry E)
             (fun c s => MainGo.outputPath E c (MainGo.serviceName (Desc_Name s)))
             config); [|exact H].
    intros f s st0 st0' H0.
    exact (proj1 (MainGo_generate_registers E f s config st0 _ _ H0) eq_refl).
Qed.

(** The template engine rejects [BadService], the second service of the
    third file: the run stops there, with the three files of the
    services before it registered, and [LateService] and the fourth file
    untouched. *)
Lemma run_fails_fast_witness :
  MainGo.main demoEnv (demoRequest [orderFile; depFile; badFile; orderFile])
              emptyPlugin
  = (Err (ErrExecTemplate "can't evaluate field"), stateAtBad)
  /\ map fst (genFiles stateAtBad)
     = ["out/order.go"; "out/prepareorder.go"; "out/user.go"].
Proof.
  split.
  - apply (proj1 (run_fails_fast demoEnv
                   (demoRequest [orderFile; depFile; badFile; orderFile])
                   demoConfig emptyPlugin
                   ltac:(vm_compute; reflexivity))
            servicesBeforeBad
            badFile {| Desc_Name := "BadService" |}
            ((badFile, {| Desc_Name := "LateService" |})
             :: eligible [orderFile])
            stateBeforeBad stateAtBad).
    + vm_compute; reflexivity.
    + unfold processed. vm_compute; reflexivity.
    + vm_compute; reflexivity.
  - vm_compute; reflexivity.
Defined.

(** C6: a file that is not flagged for generation is skipped: the run
    with the file is the run without it, in its result, in the files
    registered and in the calls made, whatever services the file
    declares; a request made of such a file alone leaves the plugin as
    it was. *)
Theorem ineligible_file_is_skipped :
  forall (E : Env) (param : option string) (before after : list File)
         (f : File) (st : Plugin),
    Generate f = false ->
    MainGo.main E {| Request_Parameter := param;
                     Files := before ++ f :: after |} st
    = MainGo.main E {| Request_Parameter := param;
                       Files := before ++ after |} st
    /\ (forall config,
           parsePluginOptions
             (paramOf {| Request_Parameter := param; Files := [f] |})
           = Ok config ->
           MainGo.main E {| Request_Parameter := param; Files := [f] |} st
           = (Ok tt, st)).
Proof.
  intros E param before after f st Hf. split.
  - unfold MainGo.main, run. simpl.
    destruct (parsePluginOptions
                match param with Some p => p | None => "" end)
      as [config|e]; [|reflexivity].
    rewrite !forEach_app.
    destruct (forEach before _ st) as [[[]|e] st1]; [|reflexivity].
    simpl. unfold bind at 1. now rewrite Hf.
  - intros config H. unfold MainGo.main.
    rewrite (run_eligible (MainGo.generateServiceRegistry E) _ config st H).
    simpl. unfold eligible. simpl. now rewrite Hf.
Qed.

(** The dependency file declares [DepService] and is not flagged. *)
Lemma ineligible_file_is_skipped_witness :
  MainGo.main demoEnv (demoRequest [orderFile; depFile; orderFile]) emptyPlugin
  = MainGo.main demoEnv (demoRequest [orderFile; orderFile]) emptyPlugin
  /\ MainGo.main demoEnv (demoRequest [depFile]) emptyPlugin
     = (Ok tt, emptyPlugin).
Proof.
  destruct (ineligible_file_is_skipped demoEnv (Some demoParam)
              [orderFile] [orderFile] depFile emptyPlugin eq_refl) as [H1 H2].
  split.
  - exact H1.
  - exact (H2 demoConfig eq_refl).
Defined.

(* ================================================================== *)
(** * Further properties of the option parser *)
(* ================================================================== *)

Lemma parsePair_ignored (config : PluginConfig) (pair : string) :
  ignored pair -> parsePair config pair = config.
Proof.
  unfold ignored, entry, parsePair, recognized.
  destruct (strings.SplitN2 pair "="%char) as [|k [|v [|? ?]]];
    try reflexivity.
  intros H. apply orb_false_iff in H. destruct H as [H H3].
  apply orb_false_iff in H. destruct H as [H1 H2].
  now rewrite H1, H2, H3.
Qed.

Lemma Join_two_not_empty (a b : string) (l : list string) :
  strings.Join (a :: b :: l) "," <> "".
Proof.
  change (strings.Join (a :: b :: l) ",")
    with (a ++ String ","%char (strings.Join (b :: l) ",")).
  destruct a; discriminate.
Qed.

(** The parser on a string put together from comma-free entries. *)
Lemma parse_joined (entries : list string) :
  strings.Join entries "," <> "" ->
  Forall comma_free entries ->
  parsePluginOptions (strings.Join entries ",") =
  let config := fold_left parsePair entries defaultConfig in
  if String.eqb (TemplateFile config) "" then Err ErrTemplateFileMissing
  else Ok config.
Proof.
  intros Hj Hall. unfold parsePluginOptions.
  destruct (String.eqb_spec (strings.Join entries ",") "") as [H|_];
    [now elim Hj|].
  assert (Hne : entries <> []) by (intros ->; now elim Hj).
  pose proof (Split_Join entries ","%char Hne Hall) as Hs.
  change (String ","%char "") with "," in Hs.
  now rewrite Hs.
Qed.

Lemma Forall_remove_middle {A} (P : A -> Prop) (l1 l2 : list A) (x : A) :
  Forall P (l1 ++ x :: l2) -> Forall P (l1 ++ l2).
Proof.
  intros H. apply Forall_app in H. destruct H as [H1 H2].
  inversion H2; subst. apply Forall_app. now split.
Qed.

(** Entries without [=] and entries with a key that is not one of the
    three do not count: the parameter string with such an entry gives
    what the string without it gives, as long as the string without it
    is not empty. *)
Theorem ignored_entry_changes_nothing :
  forall (before after : list string) (e : string),
    Forall comma_free (before ++ e :: after) ->
    ignored e ->
    strings.Join (before ++ after) "," <> "" ->
    parsePluginOptions (strings.Join (before ++ e :: after) ",")
    = parsePluginOptions (strings.Join (before ++ after) ",").
Proof.
  intros before after e Hall Hign Hne.
  assert (Hne' : strings.Join (before ++ e :: after) "," <> "").
  { destruct before as [|b before]; simpl app in *.
    - destruct after as [|a after]; [now elim Hne|].
      apply Join_two_not_empty.
    - destruct before as [|b' before]; simpl app; apply Join_two_not_empty. }
  rewrite (parse_joined _ Hne' Hall).
  rewrite (parse_joined _ Hne (Forall_remove_middle _ _ _ _ Hall)).
  rewrite !fold_left_app. simpl fold_left.
  now rewrite (parsePair_ignored _ _ Hign).
Qed.

(** [verbose] has no [=], [lang] is not a key of the parser. *)
Lemma ignored_entry_changes_nothing_witness :
  parsePluginOptions "template_file=t.tmpl,verbose,output_dir=out"
  = parsePluginOptions "template_file=t.tmpl,output_dir=out"
  /\ parsePluginOptions "lang = go,template_file=t.tmpl"
     = parsePluginOptions "template_file=t.tmpl".
Proof.
  split.
  - apply (ignored_entry_changes_nothing
             ["template_file=t.tmpl"] ["output_dir=out"] "verbose").
    + repeat constructor.
    + exact I.
    + discriminate.
  - apply (ignored_entry_changes_nothing [] ["template_file=t.tmpl"] "lang = go").
    + repeat constructor.
    + vm_compute. reflexivity.
    + discriminate.
Defined.

(** The parser has two errors: the first one for the empty string and
    for it alone, the second one for every other refused string; an
    accepted configuration has a template file. *)
Theorem parse_outcomes :
  forall param : string,
    (parsePluginOptions param = Err ErrParamMissing <-> param = "")
    /\ (forall e,
           parsePluginOptions param = Err e ->
           e = ErrParamMissing \/ (e = ErrTemplateFileMissing /\ param <> ""))
    /\ (forall config,
           parsePluginOptions param = Ok config ->
           TemplateFile config <> "" /\ param <> "").
Proof.
  intros param. unfold parsePluginOptions.
  destruct (String.eqb_spec param "") as [->|Hne].
  - repeat split; try discriminate; intros; try discriminate.
    left. congruence.
  - destruct (String.eqb_spec
                (TemplateFile
                   (fold_left parsePair (strings.Split param ","%char)
                              defaultConfig)) "") as [H0|H0].
    + repeat split; try discriminate; try assumption.
      * intros H. now elim Hne.
      * intros e H. right. split; [congruence | exact Hne].
    + repeat split; try discriminate; try assumption.
      * intros H. now elim Hne.
      * injection H as <-. exact H0.
Qed.

Lemma parsePair_comm (config : PluginConfig) (e1 e2 : string) :
  (forall k1 v1 k2 v2,
      entry e1 = Some (k1, v1) -> entry e2 = Some (k2, v2) -> k1 <> k2) ->
  parsePair (parsePair config e1) e2 = parsePair (parsePair config e2) e1.
Proof.
  unfold entry, parsePair.
  destruct (strings.SplitN2 e1 "="%char) as [|k1 [|v1 [|? ?]]];
    try reflexivity;
    destruct (strings.SplitN2 e2 "="%char) as [|k2 [|v2 [|? ?]]];
    try reflexivity.
  intros H. specialize (H _ _ _ _ eq_refl eq_refl). revert H.
  generalize (strings.TrimSpace k1) (strings.TrimSpace v1)
             (strings.TrimSpace k2) (strings.TrimSpace v2).
  intros a x b y Hab.
  destruct (String.eqb_spec a "template_file") as [Ea|Na];
    [|destruct (String.eqb_spec a "output_dir") as [Ea|Na'];
      [|destruct (String.eqb_spec a "package_name") as [Ea|Na'']]];
    (destruct (String.eqb_spec b "template_file") as [Eb|Nb];
     [|destruct (String.eqb_spec b "output_dir") as [Eb|Nb'];
       [|destruct (String.eqb_spec b "package_name") as [Eb|Nb'']]]);
    simpl; try reflexivity; congruence.
Qed.

(** Two neighbouring entries with different keys can change places:
    the order of the entries counts only between entries with the same
    key. *)
Theorem entries_with_different_keys_commute :
  forall (before after : list string) (e1 e2 : string),
    Forall comma_free (before ++ e1 :: e2 :: after) ->
    (forall k1 v1 k2 v2,
        entry e1 = Some (k1, v1) -> entry e2 = Some (k2, v2) -> k1 <> k2) ->
    parsePluginOptions (strings.Join (before ++ e1 :: e2 :: after) ",")
    = parsePluginOptions (strings.Join (before ++ e2 :: e1 :: after) ",").
Proof.
  intros before after e1 e2 Hall Hk.
  assert (Hne : forall a b, strings.Join (before ++ a :: b :: after) "," <> "").
  { intros a b. destruct before as [|x [|y before]]; simpl app;
      apply Join_two_not_empty. }
  assert (Hall' : Forall comma_free (before ++ e2 :: e1 :: after)).
  { apply Forall_app in Hall. destruct Hall as [H1 H2].
    inversion H2 as [|? ? Ha H3]; subst. inversion H3 as [|? ? Hb H4]; subst.
    apply Forall_app. split; [exact H1|]. repeat constructor; assumption. }
  rewrite (parse_joined _ (Hne e1 e2) Hall), (parse_joined _ (Hne e2 e1) Hall').
  rewrite !fold_left_app. simpl fold_left.
  now rewrite (parsePair_comm _ _ _ Hk).
Qed.

(** [output_dir] before or after [template_file]. *)
Lemma entries_with_different_keys_commute_witness :
  parsePluginOptions "x=1,output_dir=out,template_file=t.tmpl"
  = parsePluginOptions "x=1,template_file=t.tmpl,output_dir=out".
Proof.
  apply (entries_with_different_keys_commute
           ["x=1"] [] "output_dir=out" "template_file=t.tmpl").
  - repeat constructor.
  - intros k1 v1 k2 v2 H1 H2.
    vm_compute in H1, H2. injection H1 as <- _. injection H2 as <- _.
    discriminate.
Defined.

Lemma parsePair_sets (config : PluginConfig) (key value : string) :
  contains "="%char key = false ->
  parsePair config (key ++ "=" ++ value) =
  let k := strings.TrimSpace key in
  let v := strings.TrimSpace value in
  if String.eqb k "template_file" then
    {| TemplateFile := v; OutputDir := OutputDir config;
       PackageName := PackageName config |}
  else if String.eqb k "output_dir" then
    {| TemplateFile := TemplateFile config; OutputDir := v;
       PackageName := PackageName config |}
  else if String.eqb k "package_name" then
    {| TemplateFile := TemplateFile config; OutputDir := OutputDir config;
       PackageName := v |}
  else config.
Proof.
  intros Hk. unfold parsePair, strings.SplitN2.
  change (key ++ "=" ++ value) with (key ++ String "="%char value).
  now rewrite Cut_append.
Qed.

(** Round trip: a configuration whose values hold no comma, are not
    changed by trimming and whose template file is not empty is what the
    parser reads from the string that spells it out. *)
Theorem parse_encode :
  forall config : PluginConfig,
    fields_comma_free config ->
    trimmed (TemplateFile config) ->
    trimmed (OutputDir config) ->
    trimmed (PackageName config) ->
    TemplateFile config <> "" ->
    parsePluginOptions (encode config) = Ok config.
Proof.
  intros [t o p] (Ht & Ho & Hp) Tt To Tp Hne. simpl in *.
  unfold trimmed in *.
  change (encode {| TemplateFile := t; OutputDir := o; PackageName := p |})
    with (strings.Join ["template_file" ++ "=" ++ t;
                        "output_dir" ++ "=" ++ o;
                        "package_name" ++ "=" ++ p] ",").
  rewrite parse_joined.
  - cbv zeta. cbn [fold_left].
    rewrite !parsePair_sets by reflexivity. cbv zeta.
    change (strings.TrimSpace "template_file") with "template_file".
    change (strings.TrimSpace "output_dir") with "output_dir".
    change (strings.TrimSpace "package_name") with "package_name".
    simpl. rewrite Tt, To, Tp.
    destruct (String.eqb_spec t "") as [E|_]; [now elim Hne | reflexivity].
  - apply Join_two_not_empty.
  - repeat constructor; unfold comma_free in *;
      rewrite contains_append; simpl; assumption.
Qed.

(** The configuration of the examples, whose package name holds [=]. *)
Lemma parse_encode_witness :
  parsePluginOptions
    "template_file=t.tmpl,output_dir=gen/out,package_name=a=b"
  = Ok {| TemplateFile := "t.tmpl"; OutputDir := "gen/out";
          PackageName := "a=b" |}.
Proof.
  apply (parse_encode
           {| TemplateFile := "t.tmpl"; OutputDir := "gen/out";
              PackageName := "a=b" |}).
  - repeat split.
  - vm_compute. reflexivity.
  - vm_compute. reflexivity.
  - vm_compute. reflexivity.
  - discriminate.
Defined.

(** ** White space around keys and values *)

Lemma asciiSpace_below (n : N) :
  strings.asciiSpace n = true -> (utf8.RuneSelf <=? n)%N = false.
Proof.
  unfold strings.asciiSpace, utf8.RuneSelf. intros H.
  repeat (apply orb_true_iff in H; destruct H as [H|H]);
    apply N.eqb_eq in H; subst n; reflexivity.
Qed.

Lemma solid_inv (c : ascii) :
  solid c = true ->
  (utf8.RuneSelf <=? N_of_ascii c)%N = false
  /\ strings.asciiSpace (N_of_ascii c) = false.
Proof.
  unfold solid, utf8.RuneSelf. intros H.
  apply andb_true_iff in H. destruct H as [H1 H2].
  apply N.ltb_lt in H1. rewrite negb_true_iff in H2.
  split; [apply N.leb_gt; exact H1 | exact H2].
Qed.

Lemma scan_start_spaces (l t : string) (n : nat) :
  spaces l = true ->
  strings.scan_start (l ++ t) n = strings.scan_start t (n + String.length l).
Proof.
  revert n. induction l as [|c l IH]; intros n H; simpl.
  - now rewrite Nat.add_0_r.
  - simpl in H. apply andb_true_iff in H. destruct H as [Hc Hl].
    rewrite (asciiSpace_below _ Hc), Hc, (IH _ Hl).
    f_equal. lia.
Qed.

Lemma scan_start_solid (c : ascii) (t : string) (n : nat) :
  solid c = true -> strings.scan_start (String c t) n = (n, false).
Proof.
  intros H. destruct (solid_inv c H) as [H1 H2]. simpl. now rewrite H1, H2.
Qed.

Lemma at_append_right (a r : string) (i : nat) :
  at_ (a ++ r) (String.length a + i) = at_ r i.
Proof.
  unfold at_. induction a as [|c a IH]; simpl; [reflexivity | exact IH].
Qed.

Lemma spaces_at (r : string) (i : nat) :
  spaces r = true -> i < String.length r ->
  strings.asciiSpace (at_ r i) = true.
Proof.
  unfold at_. revert i. induction r as [|c r IH]; intros i H Hi; simpl in *.
  - lia.
  - apply andb_true_iff in H. destruct H as [Hc Hr].
    destruct i as [|i]; [exact Hc|]. apply IH; [exact Hr | lia].
Qed.

(** The backward scan passes [k] bytes of white space. *)
Lemma scan_stop_spaces (x : string) (start n k : nat) :
  (forall i, i < k -> strings.asciiSpace (at_ x (n + i)) = true) ->
  start <= n ->
  strings.scan_stop x start (n + k) = strings.scan_stop x start n.
Proof.
  intros Hsp Hs. induction k as [|k IH].
  - now rewrite Nat.add_0_r.
  - replace (n + S k) with (S (n + k)) by lia.
    cbn [strings.scan_stop].
    replace (start <? S (n + k))%nat with true
      by (symmetry; apply Nat.ltb_lt; lia).
    assert (Hc : strings.asciiSpace (at_ x (n + k)) = true)
      by (apply Hsp; lia).
    rewrite (asciiSpace_below _ Hc), Hc.
    apply IH. intros i Hi. apply Hsp. lia.
Qed.

Lemma scan_stop_solid (a r : string) (d : ascii) (start : nat) :
  solid d = true ->
  start <= String.length a ->
  strings.scan_stop (a ++ String d r) start (S (String.length a))
  = (S (String.length a), false).
Proof.
  intros Hd Hs. destruct (solid_inv d Hd) as [H1 H2].
  cbn [strings.scan_stop].
  replace (start <? S (String.length a))%nat with true
    by (symmetry; apply Nat.ltb_lt; lia).
  assert (Hat : at_ (a ++ String d r) (String.length a) = N_of_ascii d).
  { pose proof (at_append_right a (String d r) 0) as G.
    now rewrite Nat.add_0_r in G. }
  now rewrite Hat, H1, H2.
Qed.

Lemma substring_middle (l s r : string) :
  String.substring (String.length l) (String.length s) (l ++ s ++ r) = s.
Proof.
  induction l as [|c l IH]; simpl; [apply substring_head | exact IH].
Qed.

Lemma last_byte_split (s : string) (d : ascii) :
  last_byte s = Some d -> exists s', s = s' ++ String d "".
Proof.
  induction s as [|c s IH]; [discriminate|].
  destruct s as [|c' s].
  - intros H. injection H as ->. now exists "".
  - intros H. change (last_byte (String c' s) = Some d) in H.
    destruct (IH H) as [s' Hs']. exists (String c s'). simpl. now rewrite Hs'.
Qed.

(** [strings.TrimSpace] removes ASCII white space at both ends of a
    tight text, and nothing else. *)
Lemma TrimSpace_padded (l s r : string) :
  spaces l = true -> spaces r = true -> tight s = true ->
  strings.TrimSpace (l ++ s ++ r) = s.
Proof.
  intros Hl Hr Ht. unfold tight in Ht.
  destruct s as [|c s0]; [discriminate|].
  destruct (last_byte (String c s0)) as [d|] eqn:Hlast; [|discriminate].
  apply andb_true_iff in Ht. destruct Ht as [Hc Hd].
  destruct (last_byte_split _ _ Hlast) as [s' Hs'].
  unfold strings.TrimSpace.
  rewrite scan_start_spaces by exact Hl.
  change (String c s0 ++ r) with (String c (s0 ++ r)).
  rewrite scan_start_solid by exact Hc. simpl Nat.add.
  change (String c (s0 ++ r)) with (String c s0 ++ r).
  assert (Hx : l ++ String c s0 ++ r = (l ++ s') ++ String d r).
  { rewrite Hs'. rewrite !append_assoc. reflexivity. }
  assert (Hlen : String.length (String c s0) = S (String.length s'))
    by (rewrite Hs', length_append; simpl; lia).
  assert (Hstop : strings.scan_stop (l ++ String c s0 ++ r) (String.length l)
                    (len (l ++ String c s0 ++ r))
                  = (String.length l + String.length (String c s0), false)).
  { unfold len. rewrite Hx.
    replace (String.length ((l ++ s') ++ String d r))
      with (S (String.length (l ++ s')) + String.length r)
      by (rewrite !length_append; simpl; lia).
    rewrite scan_stop_spaces.
    - rewrite scan_stop_solid by (exact Hd || (rewrite length_append; lia)).
      f_equal. rewrite length_append. lia.
    - intros i Hi.
      replace (S (String.length (l ++ s')) + i)
        with (String.length ((l ++ s') ++ String d "") + i)
        by (rewrite !length_append; simpl; lia).
      replace ((l ++ s') ++ String d r)
        with (((l ++ s') ++ String d "") ++ r)
        by (rewrite !append_assoc; reflexivity).
      rewrite at_append_right. now apply spaces_at.
    - rewrite length_append. lia. }
  rewrite Hstop. unfold slice.
  replace (String.length l + String.length (String c s0) - String.length l)
    with (String.length (String c s0)) by lia.
  apply substring_middle.
Qed.

Lemma TrimSpace_tight (s : string) :
  tight s = true -> strings.TrimSpace s = s.
Proof.
  intros H. pose proof (TrimSpace_padded "" s "" eq_refl eq_refl H) as G.
  simpl in G. now rewrite append_empty_r in G.
Qed.

Lemma spaces_free (c : ascii) (l : string) :
  strings.asciiSpace (N_of_ascii c) = false ->
  spaces l = true -> contains c l = false.
Proof.
  intros Hc. induction l as [|a l IH]; simpl; intros H; [reflexivity|].
  apply andb_true_iff in H. destruct H as [Ha Hl].
  rewrite (IH Hl), orb_false_r.
  destruct (Ascii.eqb_spec a c) as [->|]; [congruence | reflexivity].
Qed.

(** ASCII white space around a key and around a value does not count:
    the entry [ k = v ], with any ASCII white space where the blanks
    are, is read as [k=v], for a key and a value that begin and end
    with an ASCII byte other than white space. *)
Theorem padding_is_ignored :
  forall (before after : list string) (l1 k r1 l2 v r2 : string),
    spaces l1 = true -> spaces r1 = true ->
    spaces l2 = true -> spaces r2 = true ->
    tight k = true -> tight v = true ->
    contains "="%char k = false ->
    Forall comma_free (before ++ (k ++ "=" ++ v)%string :: after) ->
    parsePluginOptions
      (strings.Join
         (before ++ ((l1 ++ k ++ r1) ++ "=" ++ (l2 ++ v ++ r2))%string :: after)
         ",")
    = parsePluginOptions
        (strings.Join (before ++ (k ++ "=" ++ v)%string :: after) ",").
Proof.
  intros before after l1 k r1 l2 v r2 Hl1 Hr1 Hl2 Hr2 Hk Hv Heq Hall.
  assert (Hpad : comma_free ((l1 ++ k ++ r1) ++ "=" ++ (l2 ++ v ++ r2))).
  { apply Forall_app in Hall. destruct Hall as [_ Hall].
    inversion Hall as [|? ? He _]; subst.
    unfold comma_free in *. rewrite !contains_append in *. simpl in *.
    apply orb_false_iff in He. destruct He as [Hck Hcv].
    rewrite Hck, Hcv.
    now rewrite !(spaces_free ","%char) by (reflexivity || assumption). }
  assert (Hall' : Forall comma_free
                    (before ++ ((l1 ++ k ++ r1) ++ "=" ++ (l2 ++ v ++ r2)) :: after)).
  { apply Forall_app in Hall. destruct Hall as [H1 H2].
    inversion H2; subst. apply Forall_app. split; [exact H1|].
    constructor; assumption. }
  rewrite (parse_entries _ ((l1 ++ k ++ r1) ++ "=" ++ (l2 ++ v ++ r2)));
    [| apply in_or_app; right; left; reflexivity
     | apply entry_not_empty | exact Hall'].
  rewrite (parse_entries _ (k ++ "=" ++ v));
    [| apply in_or_app; right; left; reflexivity
     | apply entry_not_empty | exact Hall].
  rewrite !fold_left_app. cbn [fold_left].
  rewrite (parsePair_sets _ k v) by exact Heq.
  rewrite (parsePair_sets _ (l1 ++ k ++ r1) (l2 ++ v ++ r2)).
  - rewrite !TrimSpace_padded by assumption.
    now rewrite !TrimSpace_tight by assumption.
  - rewrite !contains_append, Heq.
    now rewrite !(spaces_free "="%char) by (reflexivity || assumption).
Qed.

(** Blanks and a tab around [output_dir] and [gen out]. *)
Lemma padding_is_ignored_witness :
  parsePluginOptions
    (strings.Join
       ["template_file=t.tmpl";
        (("  " ++ "output_dir" ++ " ") ++ "="
         ++ (String (ascii_of_N 9) "" ++ "gen out" ++ "   "))%string] ",")
  = parsePluginOptions "template_file=t.tmpl,output_dir=gen out".
Proof.
  apply (padding_is_ignored ["template_file=t.tmpl"] []
           "  " "output_dir" " " (String (ascii_of_N 9) "") "gen out" "   ");
    try reflexivity.
  repeat constructor.
Defined.

(* ================================================================== *)
(** * Further properties of the pipeline *)
(* ================================================================== *)

(** [loadTemplate] asks [os.Stat] first and reads the file only when the
    answer is not that the path is absent; it registers no file. *)
Theorem loadTemplate_calls :
  forall (E : Env) (config : PluginConfig) (st : Plugin),
    let path := TemplateFile config in
    let st' := snd (loadTemplate E config st) in
    genFiles st' = genFiles st
    /\ calls st'
       = (calls st ++
          match fs E path with
          | Absent => [CallStat path]
          | Present _ _ => [CallStat path; CallReadFile path]
          end)%list.
Proof.
  intros E config st path st'. subst st'.
  unfold loadTemplate, os_Stat, os_ReadFile, bind, log, ret, fail.
  fold path. simpl.
  destruct (fs E path) as [|[t|] [e|c]]; simpl;
    (split; [reflexivity|]); rewrite <- ?app_assoc; reflexivity.
Qed.

(** Unfold the steps of [generateServiceRegistry] and split on what the
    collaborators answer. *)
Ltac steps E config :=
  unfold rendered, wrapErr, orFail, loadTemplate, os_Stat, os_ReadFile,
    Parse, Execute, Source, NewGeneratedFile, Write, bind, log, ret, fail;
  simpl;
  destruct (fs E (TemplateFile config)) as [|[?|] [?|?]]; simpl;
  repeat match goal with
    | |- context [match template_Parse E ?c with _ => _ end] =>
        destruct (template_Parse E c); simpl
    | |- context [match template_Execute E ?t ?d with _ => _ end] =>
        destruct (template_Execute E t d); simpl
    | |- context [match format_Source E ?b with _ => _ end] =>
        destruct (format_Source E b); simpl
    | |- context [match buffer_Write E ?f with _ => _ end] =>
        destruct (buffer_Write E f); simpl
    end;
  rewrite ?update_last; simpl.

(** What a call of [generateServiceRegistry] of [main.go] returns and
    registers: the error of the first step that fails, with nothing
    registered; or, when the text is there, one more file at the output
    path with the text; or, when the write fails, the error of the
    write, the file being registered with an empty buffer.  The files
    registered before stay as they are. *)
Theorem MainGo_generate_outcome :
  forall (E : Env) (file : File) (service : Service) (config : PluginConfig)
         (st : Plugin),
    let path :=
      MainGo.outputPath E config (MainGo.serviceName (Desc_Name service)) in
    let run := MainGo.generateServiceRegistry E file service config st in
    match rendered E config (dataMainGo config file service) with
    | Err e => fst run = Err e /\ genFiles (snd run) = genFiles st
    | Ok text =>
        match buffer_Write E text with
        | None =>
            fst run = Ok tt
            /\ genFiles (snd run) = (genFiles st ++ [(path, text)])%list
        | Some w =>
            fst run = Err (ErrWrite w)
            /\ genFiles (snd run) = (genFiles st ++ [(path, "")])%list
        end
    end.
Proof.
  intros E file service config st path run. subst run path.
  unfold MainGo.generateServiceRegistry, dataMainGo, MainGo.fields,
    MainGo.serviceName.
  cbv zeta. steps E config; split; reflexivity.
Qed.

(** The same for the second program. *)
Theorem Part000_generate_outcome :
  forall (E : Env) (file : File) (service : Service) (config : PluginConfig)
         (st : Plugin),
    let path :=
      Part000.outputPath config (Part000.serviceName (Desc_Name service)) in
    let run := Part000.generateServiceRegistry E file service config st in
    match rendered E config (dataPart000 config file service) with
    | Err e => fst run = Err e /\ genFiles (snd run) = genFiles st
    | Ok text =>
        match buffer_Write E text with
        | None =>
            fst run = Ok tt
            /\ genFiles (snd run) = (genFiles st ++ [(path, text)])%list
        | Some w =>
            fst run = Err (ErrWrite w)
            /\ genFiles (snd run) = (genFiles st ++ [(path, "")])%list
        end
    end.
Proof.
  intros E file service config st path run. subst run path.
  unfold Part000.generateServiceRegistry, dataPart000, Part000.fields,
    Part000.serviceName.
  cbv zeta. steps E config; split; reflexivity.
Qed.

Lemma reads_app (a b : list Call) : reads (a ++ b) = (reads a ++ reads b)%list.
Proof.
  induction a as [|c a IH]; [reflexivity|].
  destruct c; simpl; rewrite IH; reflexivity.
Qed.

Lemma executed_app (a b : list Call) :
  executed (a ++ b) = (executed a ++ executed b)%list.
Proof.
  induction a as [|c a IH]; [reflexivity|].
  destruct c; simpl; rewrite IH; reflexivity.
Qed.

(** The journal of a successful call: one read of the template file,
    one execution, with the data of the program. *)
Lemma MainGo_generate_journal E file service config st st' :
  MainGo.generateServiceRegistry E file service config st = (Ok tt, st') ->
  reads (calls st') = (reads (calls st) ++ [TemplateFile config])%list
  /\ executed (calls st')
     = (executed (calls st) ++ [dataMainGo config file service])%list.
Proof.
  unfold MainGo.generateServiceRegistry, dataMainGo, MainGo.fields,
    MainGo.serviceName.
  cbv zeta. steps E config; intros H; try discriminate H;
    injection H as <-; simpl;
    rewrite !reads_app, !executed_app; simpl;
    rewrite ?app_nil_r; split; reflexivity.
Qed.

Lemma Part000_generate_journal E file service config st st' :
  Part000.generateServiceRegistry E file service config st = (Ok tt, st') ->
  reads (calls st') = (reads (calls st) ++ [TemplateFile config])%list
  /\ executed (calls st')
     = (executed (calls st) ++ [dataPart000 config file service])%list.
Proof.
  unfold Part000.generateServiceRegistry, dataPart000, Part000.fields,
    Part000.serviceName.
  cbv zeta. steps E config; intros H; try discriminate H;
    injection H as <-; simpl;
    rewrite !reads_app, !executed_app; simpl;
    rewrite ?app_nil_r; split; reflexivity.
Qed.

Section Observations.

Variable generate : File -> Service -> PluginConfig -> M unit.
Variable X : Type.
Variable obs : Plugin -> list X.
Variable item : PluginConfig -> File -> Service -> X.

(** When every successful call adds one item to what is observed of the
    plugin, the services processed have added their items, in order. *)
Lemma processed_items (config : PluginConfig) :
  (forall f s st st',
      generate f s config st = (Ok tt, st') ->
      obs st' = (obs st ++ [item config f s])%list) ->
  forall done st st',
    processed generate config done st st' ->
    obs st'
    = (obs st ++ map (fun p => item config (fst p) (snd p)) done)%list.
Proof.
  intros Hgen. unfold processed.
  induction done as [|[f s] done IH]; intros st st' H.
  - injection H as <-. now rewrite app_nil_r.
  - simpl in H. unfold bind in H.
    destruct (generate f s config st) as [[[]|e] st1] eqn:E; [|discriminate].
    rewrite (IH _ _ H), (Hgen _ _ _ _ E). simpl.
    now rewrite <- app_assoc.
Qed.

End Observations.

(** No caching: a successful run of either program has read the
    template file once for every eligible service. *)
Theorem template_read_for_every_service :
  forall (E : Env) (gen : Request) (config : PluginConfig) (st : Plugin),
    parsePluginOptions (paramOf gen) = Ok config ->
    (forall st',
        MainGo.main E gen st = (Ok tt, st') ->
        reads (calls st')
        = (reads (calls st)
           ++ repeat (TemplateFile config)
                     (List.length (eligible (Files gen))))%list)
    /\ (forall st',
           Part000.main E gen st = (Ok tt, st') ->
           reads (calls st')
           = (reads (calls st)
              ++ repeat (TemplateFile config)
                        (List.length (eligible (Files gen))))%list).
Proof.
  intros E gen config st Hparse.
  assert (Hrep : forall (l : list (File * Service)),
             map (fun _ => TemplateFile config) l
             = repeat (TemplateFile config) (List.length l)).
  { induction l as [|p l IH]; simpl; [reflexivity | now rewrite IH]. }
  split; intros st' H.
  - unfold MainGo.main in H.
    rewrite (run_eligible _ gen config st Hparse) in H.
    rewrite <- Hrep.
    apply (processed_items (MainGo.generateServiceRegistry E) _
             (fun st => reads (calls st)) (fun c _ _ => TemplateFile c) config);
      [|exact H].
    intros f s st0 st0' H0.
    exact (proj1 (MainGo_generate_journal E f s config st0 st0' H0)).
  - unfold Part000.main in H.
    rewrite (run_eligible _ gen config st Hparse) in H.
    rewrite <- Hrep.
    apply (processed_items (Part000.generateServiceRegistry E) _
             (fun st => reads (calls st)) (fun c _ _ => TemplateFile c) config);
      [|exact H].
    intros f s st0 st0' H0.
    exact (proj1 (Part000_generate_journal E f s config st0 st0' H0)).
Qed.

(** Two services of one file: two reads of [t.tmpl]. *)
Lemma template_read_for_every_service_witness :
  reads (calls (snd (MainGo.main demoEnv (demoRequest [orderFile; depFile])
                                 emptyPlugin)))
  = ["t.tmpl"; "t.tmpl"].
Proof.
  apply (proj1 (template_read_for_every_service demoEnv
                  (demoRequest [orderFile; depFile]) demoConfig emptyPlugin
                  ltac:(vm_compute; reflexivity))).
  vm_compute. reflexivity.
Defined.

(** What the template of [main.go] is executed with in a successful
    run: for every eligible service, in order, the package name of the
    configuration, the service name without its suffix, and the package
    identifier of the file without its [proto_] or [proto.] prefix. *)
Theorem MainGo_template_data :
  forall (E : Env) (gen : Request) (config : PluginConfig) (st st' : Plugin),
    parsePluginOptions (paramOf gen) = Ok config ->
    MainGo.main E gen st = (Ok tt, st') ->
    executed (calls st')
    = (executed (calls st)
       ++ map (fun p =>
                 [("PackageName", PackageName config);
                  ("ServiceName",
                   strings.TrimSuffix (Desc_Name (snd p)) "Service");
                  ("ProtoPackageName",
                   MainGo.protoPackageName (GoPackageName (fst p)))])
              (eligible (Files gen)))%list.
Proof.
  intros E gen config st st' Hparse H.
  unfold MainGo.main in H.
  rewrite (run_eligible _ gen config st Hparse) in H.
  apply (processed_items (MainGo.generateServiceRegistry E) _
           (fun st => executed (calls st)) dataMainGo config); [|exact H].
  intros f s st0 st0' H0.
  exact (proj2 (MainGo_generate_journal E f s config st0 st0' H0)).
Qed.

Lemma MainGo_template_data_witness :
  executed (calls (snd (MainGo.main demoEnv (demoRequest [depFile; orderFile])
                                    emptyPlugin)))
  = [[("PackageName", "pkg"); ("ServiceName", "Order");
      ("ProtoPackageName", "order")];
     [("PackageName", "pkg"); ("ServiceName", "PrepareOrder");
      ("ProtoPackageName", "order")]].
Proof.
  apply (MainGo_template_data demoEnv (demoRequest [depFile; orderFile])
           demoConfig emptyPlugin _ ltac:(vm_compute; reflexivity)).
  vm_compute. reflexivity.
Defined.

(** What the template of the second program is executed with in a
    successful run: the package identifier and the import path of the
    file as the host gave them, with the package name of the
    configuration and the service name without its suffix. *)
Theorem Part000_template_data :
  forall (E : Env) (gen : Request) (config : PluginConfig) (st st' : Plugin),
    parsePluginOptions (paramOf gen) = Ok config ->
    Part000.main E gen st = (Ok tt, st') ->
    executed (calls st')
    = (executed (calls st)
       ++ map (fun p =>
                 [("PackageName", PackageName config);
                  ("ServiceName",
                   strings.TrimSuffix (Desc_Name (snd p)) "Service");
                  ("ProtoPackageName", GoPackageName (fst p));
                  ("ProtoImportPath", GoImportPath (fst p))])
              (eligible (Files gen)))%list.
Proof.
  intros E gen config st st' Hparse H.
  unfold Part000.main in H.
  rewrite (run_eligible _ gen config st Hparse) in H.
  apply (processed_items (Part000.generateServiceRegistry E) _
           (fun st => executed (calls st)) dataPart000 config); [|exact H].
  intros f s st0 st0' H0.
  exact (proj2 (Part000_generate_journal E f s config st0 st0' H0)).
Qed.

Lemma Part000_template_data_witness :
  executed (calls (snd (Part000.main demoEnv (demoRequest [depFile; orderFile])
                                     emptyPlugin)))
  = [[("PackageName", "pkg"); ("ServiceName", "Order");
      ("ProtoPackageName", "proto_order");
      ("ProtoImportPath", "example.com/gen/order")];
     [("PackageName", "pkg"); ("ServiceName", "PrepareOrder");
      ("ProtoPackageName", "proto_order");
      ("ProtoImportPath", "example.com/gen/order")]].
Proof.
  apply (Part000_template_data demoEnv (demoRequest [depFile; orderFile])
           demoConfig emptyPlugin _ ltac:(vm_compute; reflexivity)).
  vm_compute. reflexivity.
Defined.

(* ================================================================== *)
(** * Further properties of the run *)
(* ================================================================== *)

(** A request whose parameter string is refused ends both programs at
    once: the error of the parser comes back wrapped, no file of the
    request is looked at, no collaborator is called and nothing is
    registered; a request without parameter is such a request. *)
Theorem refused_parameter_stops_the_run :
  forall (E : Env) (gen : Request) (st : Plugin) (e : error),
    parsePluginOptions (paramOf gen) = Err e ->
    MainGo.main E gen st = (Err (ErrParseOptions e), st)
    /\ Part000.main E gen st = (Err (ErrParseOptions e), st)
    /\ (Request_Parameter gen = None -> e = ErrParamMissing).
Proof.
  intros E gen st e H.
  unfold MainGo.main, Part000.main, run. fold (paramOf gen). rewrite H.
  repeat split.
  intros Hn. unfold paramOf in H. rewrite Hn in H.
  change (@Err PluginConfig ErrParamMissing = Err e) in H. congruence.
Qed.

(** No parameter at all; [output_dir] alone. *)
Lemma refused_parameter_stops_the_run_witness :
  MainGo.main demoEnv {| Request_Parameter := None; Files := [orderFile] |}
              emptyPlugin
  = (Err (ErrParseOptions ErrParamMissing), emptyPlugin)
  /\ Part000.main demoEnv
       {| Request_Parameter := Some "output_dir=out"; Files := [orderFile] |}
       emptyPlugin
     = (Err (ErrParseOptions ErrTemplateFileMissing), emptyPlugin).
Proof.
  split.
  - exact (proj1 (refused_parameter_stops_the_run demoEnv
                    {| Request_Parameter := None; Files := [orderFile] |}
                    emptyPlugin ErrParamMissing eq_refl)).
  - exact (proj1 (proj2 (refused_parameter_stops_the_run demoEnv
                    {| Request_Parameter := Some "output_dir=out";
                       Files := [orderFile] |}
                    emptyPlugin ErrTemplateFileMissing
                    ltac:(vm_compute; reflexivity)))).
Defined.

(** The second program stops at the first failure as [main.go] does: it
    returns the error of the first eligible service that fails, in the
    state that call left, and a run that succeeds has registered the
    file of every eligible service, in order, under the lower-camel
    name. *)
Theorem Part000_run_fails_fast :
  forall (E : Env) (gen : Request) (config : PluginConfig) (st : Plugin),
    parsePluginOptions (paramOf gen) = Ok config ->
    (forall done f s todo st1 st2 e,
        eligible (Files gen) = (done ++ (f, s) :: todo)%list ->
        processed (Part000.generateServiceRegistry E) config done st st1 ->
        Part000.generateServiceRegistry E f s config st1 = (Err e, st2) ->
        Part000.main E gen st = (Err e, st2))
    /\ (forall e st2,
           Part000.main E gen st = (Err e, st2) ->
           exists done f s todo st1,
             eligible (Files gen) = (done ++ (f, s) :: todo)%list
             /\ processed (Part000.generateServiceRegistry E) config done st st1
             /\ Part000.generateServiceRegistry E f s config st1 = (Err e, st2))
    /\ (forall st',
           Part000.main E gen st = (Ok tt, st') ->
           map fst (genFiles st')
           = (map fst (genFiles st)
              ++ map (fun p =>
                        filepath.Join
                          [OutputDir config;
                           (Part000.toCamelCase
                              (strings.TrimSuffix (Desc_Name (snd p)) "Service")
                            ++ ".go")%string])
                     (eligible (Files gen)))%list).
Proof.
  intros E gen config st Hparse.
  unfold Part000.main.
  rewrite (run_eligible (Part000.generateServiceRegistry E) gen config st Hparse).
  split; [|split].
  - intros done f s todo st1 st2 e Hel Hdone Hfail.
    rewrite Hel.
    apply (forEach_stops done todo (f, s) _ st st1 st2 e Hdone Hfail).
  - intros e st2 H.
    destruct (forEach_failed _ _ _ _ _ H) as (l1 & [f s] & l2 & st1 & Hl & H1 & H2).
    exists l1, f, s, l2, st1. repeat split; assumption.
  - intros st' H.
    apply (processed_paths (Part000.generateServiceRegistry E)
             (fun c s => Part000.outputPath c (Part000.serviceName (Desc_Name s)))
             config); [|exact H].
    intros f s st0 st0' H0.
    exact (proj1 (Part000_generate_registers E f s config st0 _ _ H0) eq_refl).
Qed.

Lemma Part000_run_fails_fast_witness :
  fst (Part000.main demoEnv
         (demoRequest [orderFile; depFile; badFile; orderFile]) emptyPlugin)
  = Err (ErrExecTemplate "can't evaluate field")
  /\ map fst (genFiles (snd (Part000.main demoEnv (demoRequest [orderFile])
                                          emptyPlugin)))
     = ["out/order.go"; "out/prepareOrder.go"].
Proof.
  pose proof (Part000_run_fails_fast demoEnv
                (demoRequest [orderFile; depFile; badFile; orderFile])
                demoConfig emptyPlugin ltac:(vm_compute; reflexivity)) as W1.
  pose proof (Part000_run_fails_fast demoEnv (demoRequest [orderFile])
                demoConfig emptyPlugin ltac:(vm_compute; reflexivity)) as W2.
  split.
  - rewrite (proj1 W1 servicesBeforeBad badFile {| Desc_Name := "BadService" |}
               ((badFile, {| Desc_Name := "LateService" |})
                :: eligible [orderFile])
               (snd (forEach servicesBeforeBad
                       (fun p => Part000.generateServiceRegistry demoEnv
                                   (fst p) (snd p) demoConfig) emptyPlugin))
               (snd (Part000.generateServiceRegistry demoEnv badFile
                       {| Desc_Name := "BadService" |} demoConfig
                       (snd (forEach servicesBeforeBad
                               (fun p => Part000.generateServiceRegistry demoEnv
                                           (fst p) (snd p) demoConfig)
                               emptyPlugin))))
               (ErrExecTemplate "can't evaluate field")).
    + reflexivity.
    + vm_compute. reflexivity.
    + unfold processed. vm_compute. reflexivity.
    + vm_compute. reflexivity.
  - apply (proj2 (proj2 W2)). vm_compute. reflexivity.
Defined.

(** The second program passes over a file that is not flagged for
    generation as [main.go] does: the run with the file is the run
    without it. *)
Theorem Part000_ineligible_file_is_skipped :
  forall (E : Env) (param : option string) (before after : list File)
         (f : File) (st : Plugin),
    Generate f = false ->
    Part000.main E {| Request_Parameter := param;
                      Files := before ++ f :: after |} st
    = Part000.main E {| Request_Parameter := param;
                        Files := before ++ after |} st.
Proof.
  intros E param before after f st Hf.
  unfold Part000.main, run. simpl.
  destruct (parsePluginOptions
              match param with Some p => p | None => "" end)
    as [config|e]; [|reflexivity].
  rewrite !forEach_app.
  destruct (forEach before _ st) as [[[]|e] st1]; [|reflexivity].
  simpl. unfold bind at 1. now rewrite Hf.
Qed.

Lemma Part000_ineligible_file_is_skipped_witness :
  Part000.main demoEnv (demoRequest [orderFile; depFile; orderFile]) emptyPlugin
  = Part000.main demoEnv (demoRequest [orderFile; orderFile]) emptyPlugin.
Proof.
  exact (Part000_ineligible_file_is_skipped demoEnv (Some demoParam)
           [orderFile] [orderFile] depFile emptyPlugin eq_refl).
Defined.

(** ** What a failed run leaves registered *)




(* ================================================================== *)
(** * Further properties of the file name and the output path *)
(* ================================================================== *)

Lemma all_ascii_append (a b : string) :
  all_ascii (a ++ b) = all_ascii a && all_ascii b.
Proof.
  induction a as [|c a IH]; simpl; [reflexivity|].
  now rewrite IH, andb_assoc.
Qed.

Lemma lower_ascii_append (a b : string) :
  strings.lower_ascii (a ++ b)
  = strings.lower_ascii a ++ strings.lower_ascii b.
Proof. induction a as [|c a IH]; simpl; [reflexivity | now rewrite IH]. Qed.

Lemma toCamelCase_lowered (s : string) :
  all_ascii s = true ->
  all_ascii (Part000.toCamelCase s) = true
  /\ strings.lower_ascii (Part000.toCamelCase s) = strings.lower_ascii s.
Proof.
  destruct s as [|c s]; [now split|].
  intros Ha. destruct (byte_in 65 90 c) eqn:Eu.
  - rewrite (toCamelCase_upper c s Eu).
    pose proof (lowered_not_upper c Eu) as Hl.
    unfold byte_in in Eu. apply andb_true_iff in Eu. destruct Eu as [Hlo Hhi].
    apply N.leb_le in Hlo, Hhi.
    simpl in Ha. apply andb_true_iff in Ha. destruct Ha as [_ Hs].
    split.
    + simpl. rewrite Hs, andb_true_r.
      rewrite N_ascii_embedding by lia. apply N.ltb_lt. lia.
    + simpl. rewrite Hl.
      unfold byte_in.
      replace (65 <=? N_of_ascii c)%N with true
        by (symmetry; apply N.leb_le; exact Hlo).
      replace (N_of_ascii c <=? 90)%N with true
        by (symmetry; apply N.leb_le; exact Hhi).
      simpl. now rewrite N.mod_small by lia.
  - rewrite (toCamelCase_other c s Eu). now split.
Qed.

(** The file names of the two programs differ in the case of letters
    only: for a service name without non-ASCII byte, lower-casing the
    file name of the second program gives the file name of [main.go]. *)
Theorem file_names_differ_in_case_only :
  forall (E : Env) (serviceName : string),
    all_ascii serviceName = true ->
    strings.ToLower (map_lower E) (Part000.fileName serviceName)
    = MainGo.fileName E serviceName.
Proof.
  intros E s Ha. unfold Part000.fileName, MainGo.fileName.
  destruct (toCamelCase_lowered s Ha) as [Hc Hl].
  rewrite !ToLower_ascii; [| exact Ha | rewrite all_ascii_append, Hc; reflexivity].
  now rewrite lower_ascii_append, Hl.
Qed.

(** [prepareOrder.go] and [prepareorder.go]. *)
Lemma file_names_differ_in_case_only_witness :
  strings.ToLower (fun s => s) "prepareOrder.go" = "prepareorder.go".
Proof.
  exact (file_names_differ_in_case_only demoEnv "PrepareOrder" eq_refl).
Defined.

(** ** Output directories made of plain elements *)

Lemma plain_not_empty (e : string) : plain e = true -> len e <> 0.
Proof. intros H. destruct e; [discriminate | discriminate]. Qed.

Lemma Clean_loop_joined (es : list string) (out : string) (dotdot : nat) :
  es <> [] ->
  Forall (fun e => plain e = true) es ->
  filepath.Clean_loop false (strings.Join es "/") 0 out dotdot
  = (if (len out =? 0)%nat then out else out ++ "/") ++ strings.Join es "/".
Proof.
  intros Hne Hall. revert out.
  induction es as [|e es IH]; intros out; [now elim Hne|].
  inversion Hall as [|? ? He Hes]; subst.
  destruct es as [|e' es].
  - change (strings.Join [e] "/") with e.
    rewrite <- (append_empty_r e) at 1.
    rewrite Clean_loop_plain by (exact He || reflexivity).
    reflexivity.
  - change (strings.Join (e :: e' :: es) "/")
      with (e ++ String "/"%char (strings.Join (e' :: es) "/")).
    rewrite Clean_loop_plain by (exact He || reflexivity).
    cbn [filepath.Clean_loop].
    change (filepath.IsPathSeparator "/"%char) with true. cbv iota.
    rewrite IH by (discriminate || exact Hes).
    set (pre := (if (len out =? 0)%nat then out else out ++ "/")).
    assert (Hlen : (len (pre ++ e) =? 0)%nat = false).
    { apply Nat.eqb_neq. unfold len. rewrite length_append.
      pose proof (plain_not_empty e He). unfold len in *. lia. }
    rewrite Hlen. now rewrite !append_assoc.
Qed.

(** [filepath.Clean] keeps a relative path made of plain elements. *)
Lemma Clean_joined (es : list string) :
  es <> [] ->
  Forall (fun e => plain e = true) es ->
  filepath.Clean (strings.Join es "/") = strings.Join es "/".
Proof.
  intros Hne Hall.
  assert (Hfirst : exists c p, strings.Join es "/" = String c p
                               /\ filepath.IsPathSeparator c = false).
  { destruct es as [|e es]; [now elim Hne|].
    inversion Hall as [|? ? He _]; subst.
    destruct (plain_inv e He) as [Hn Hf].
    destruct e as [|c e]; [discriminate|].
    simpl in Hf. apply orb_false_iff in Hf.
    destruct es as [|e' es].
    - exists c, e. split; [reflexivity | exact (proj1 Hf)].
    - exists c, (e ++ String "/"%char (strings.Join (e' :: es) "/")).
      split; [reflexivity | exact (proj1 Hf)]. }
  destruct Hfirst as (c & p & Hj & Hc).
  pose proof (Clean_loop_joined es "" 0 Hne Hall) as Hloop.
  rewrite Hj in *. rewrite Clean_relative by exact Hc.
  rewrite Hloop. reflexivity.
Qed.

Lemma Join_snoc (ds : list string) (n : string) :
  ds <> [] ->
  strings.Join (ds ++ [n]) "/" = strings.Join ds "/" ++ "/" ++ n.
Proof.
  induction ds as [|d ds IH]; intros Hne; [now elim Hne|].
  destruct ds as [|d' ds]; [reflexivity|].
  change (strings.Join ((d :: d' :: ds) ++ [n]) "/")
    with (d ++ "/" ++ strings.Join ((d' :: ds) ++ [n]) "/").
  rewrite IH by discriminate.
  change (strings.Join (d :: d' :: ds) "/")
    with (d ++ "/" ++ strings.Join (d' :: ds) "/").
  now rewrite !append_assoc.
Qed.

(** For an output directory made of plain elements ([gen/out]), and for
    the empty output directory, the output path is the elements of the
    directory and the file name, with a slash between any two: no
    leading slash is added for the empty directory. *)
Theorem outputPath_under_plain_dirs :
  forall (E : Env) (config : PluginConfig) (dirs : list string)
         (serviceName : string),
    OutputDir config = strings.Join dirs "/" ->
    Forall (fun d => plain d = true) dirs ->
    (plain (MainGo.fileName E serviceName) = true ->
     MainGo.outputPath E config serviceName
     = strings.Join (dirs ++ [MainGo.fileName E serviceName]) "/")
    /\ (plain (Part000.fileName serviceName) = true ->
        Part000.outputPath config serviceName
        = strings.Join (dirs ++ [Part000.fileName serviceName]) "/").
Proof.
  intros E config dirs s Hdir Hall.
  assert (G : forall n,
             plain n = true ->
             filepath.Join [OutputDir config; n]
             = strings.Join (dirs ++ [n]) "/").
  { intros n Hn.
    assert (Hall' : Forall (fun d => plain d = true) (dirs ++ [n]))
      by (apply Forall_app; split; [exact Hall | now constructor]).
    assert (Hne' : (dirs ++ [n])%list <> [])
      by (destruct dirs; discriminate).
    destruct (plain_inv n Hn) as [Hnn _].
    rewrite Hdir. destruct dirs as [|d dirs].
    - simpl. rewrite Hnn. apply (Clean_joined [n]); [discriminate | exact Hall'].
    - unfold filepath.Join.
      assert (Hd : String.eqb (strings.Join (d :: dirs) "/") "" = false).
      { inversion Hall as [|? ? Hpd _]; subst.
        destruct (plain_inv d Hpd) as [Hdn _].
        destruct d as [|c d]; [discriminate|].
        destruct dirs; reflexivity. }
      rewrite Hd.
      change (strings.Join [strings.Join (d :: dirs) "/"; n] "/")
        with (strings.Join (d :: dirs) "/" ++ "/" ++ n).
      rewrite <- Join_snoc by discriminate.
      now apply Clean_joined. }
  split; intros Hn.
  - unfold MainGo.outputPath. now apply G.
  - unfold Part000.outputPath. now apply G.
Qed.

(** Under [gen/out], and with [output_dir=]. *)
Lemma outputPath_under_plain_dirs_witness :
  Part000.outputPath
    {| TemplateFile := "t.tmpl"; OutputDir := "gen/out"; PackageName := "p" |}
    "PrepareOrder"
  = "gen/out/prepareOrder.go"
  /\ MainGo.outputPath demoEnv
       {| TemplateFile := "t.tmpl"; OutputDir := ""; PackageName := "p" |}
       "PrepareOrder"
     = "prepareorder.go".
Proof.
  split.
  - apply (proj2 (outputPath_under_plain_dirs demoEnv
                    {| TemplateFile := "t.tmpl"; OutputDir := "gen/out";
                       PackageName := "p" |}
                    ["gen"; "out"] "PrepareOrder" eq_refl
                    ltac:(repeat constructor))).
    reflexivity.
  - apply (proj1 (outputPath_under_plain_dirs demoEnv
                    {| TemplateFile := "t.tmpl"; OutputDir := "";
                       PackageName := "p" |}
                    [] "PrepareOrder" eq_refl ltac:(constructor))).
    reflexivity.
Defined.

(* ================================================================== *)
(** * Blank values *)
(* ================================================================== *)

Lemma substring_none (n : nat) (s : string) : String.substring n 0 s = "".
Proof.
  revert n. induction s as [|c s IH]; intros [|n]; simpl; auto.
Qed.

Lemma scan_stop_at_start (x : string) (n : nat) :
  strings.scan_stop x n n = (n, false).
Proof.
  destruct n as [|n]; [reflexivity|].
  cbn [strings.scan_stop]. now rewrite Nat.ltb_irrefl.
Qed.

Lemma TrimSpace_spaces (l : string) :
  spaces l = true -> strings.TrimSpace l = "".
Proof.
  intros H. unfold strings.TrimSpace.
  pose proof (scan_start_spaces l "" 0 H) as Hs.
  rewrite append_empty_r in Hs. simpl in Hs. rewrite Hs.
  unfold len. rewrite scan_stop_at_start.
  unfold slice. rewrite Nat.sub_diag. apply substring_none.
Qed.

(** A value of ASCII white space only is the empty value: with it
    [template_file] is missing, and [output_dir] and [package_name] are
    set to the empty text. *)
Theorem blank_value_is_empty :
  forall l : string,
    spaces l = true ->
    parsePluginOptions ("template_file=" ++ l) = Err ErrTemplateFileMissing
    /\ parsePluginOptions
         ("template_file=t,output_dir=" ++ l ++ ",package_name=" ++ l)
       = Ok {| TemplateFile := "t"; OutputDir := ""; PackageName := "" |}.
Proof.
  intros l Hl.
  assert (Hc : comma_free l) by (apply spaces_free; [reflexivity | exact Hl]).
  split.
  - change ("template_file=" ++ l)
      with (strings.Join ["template_file" ++ "=" ++ l] ",").
    rewrite (parse_entries _ ("template_file" ++ "=" ++ l)).
    + cbv zeta. cbn [fold_left].
      rewrite parsePair_sets by reflexivity. cbv zeta.
      change (strings.TrimSpace "template_file") with "template_file".
      now rewrite TrimSpace_spaces by exact Hl.
    + now left.
    + discriminate.
    + repeat constructor. exact Hc.
  - change ("template_file=t,output_dir=" ++ l ++ ",package_name=" ++ l)
      with (strings.Join ["template_file" ++ "=" ++ "t";
                          "output_dir" ++ "=" ++ l;
                          "package_name" ++ "=" ++ l] ",").
    rewrite parse_joined.
    + cbv zeta. cbn [fold_left].
      rewrite !parsePair_sets by reflexivity. cbv zeta.
      change (strings.TrimSpace "template_file") with "template_file".
      change (strings.TrimSpace "output_dir") with "output_dir".
      change (strings.TrimSpace "package_name") with "package_name".
      change (strings.TrimSpace "t") with "t".
      now rewrite !TrimSpace_spaces by exact Hl.
    + apply Join_two_not_empty.
    + repeat constructor; try exact Hc; reflexivity.
Qed.

(** Three blanks. *)
Lemma blank_value_is_empty_witness :
  parsePluginOptions "template_file=   " = Err ErrTemplateFileMissing.
Proof.
  exact (proj1 (blank_value_is_empty "   " eq_refl)).
Defined.
